(** * era_py.text.NumberedLines: a shallow embedding and its properties

    The Python class [NumberedLines] (src/era_py/text.py) pairs a list of
    text lines with a list of original line numbers.  Every derived
    instance (slice, filter, filter_out, reset_index) is built by calling
    the public constructor again, so the constructor's line splitting and
    its length check run on every transformation.  The embedding below
    keeps that structure: the transformations are defined through [init]. *)

From stdpp Require Import list numbers strings sorting.

Open Scope Z_scope.

(** ** Exceptions and results *)

Inductive exn : Set :=
  | TypeError
  | ValueError
  | IndexError.

Inductive result (A : Type) : Type :=
  | Ok (a : A)
  | Raise (e : exn).
Arguments Ok {A} a.
Arguments Raise {A} e.

(** [result] is an error monad; [x ← r; k] is stdpp's bind notation. *)
Global Instance result_ret : MRet result := λ A a, Ok a.
Global Instance result_bind : MBind result := λ A B k r,
  match r with
  | Ok a => k a
  | Raise e => Raise e
  end.

Definition is_ok {A} (r : result A) : bool :=
  match r with Ok _ => true | Raise _ => false end.

(** ** Python strings

    A Python [str] is a sequence of Unicode code points. *)

Definition char := N.
Definition str := list char.

Definition LF : char := 10%N.
Definition CR : char := 13%N.

(** ASCII literals, for readable examples. *)
Definition py (s : string) : str :=
  (λ a, Ascii.N_of_ascii a) <$> String.list_ascii_of_string s.

(** The line boundaries of [str.splitlines]: LF, VT, FF, CR, FS, GS, RS,
    NEL, LINE SEPARATOR and PARAGRAPH SEPARATOR. *)
Definition is_linebreak (c : char) : bool :=
  ((c =? 10) || (c =? 11) || (c =? 12) || (c =? 13) ||
   (c =? 28) || (c =? 29) || (c =? 30) || (c =? 133) ||
   (c =? 8232) || (c =? 8233))%N.

(** [str.splitlines()] without [keepends].  [cur] is the line scanned so
    far.  A line boundary closes the current line (also when it is
    empty); CR immediately followed by LF is one boundary.  At the end of
    the string a non-empty unterminated line is emitted, an empty one is
    not. *)
Fixpoint splitlines_from (cur : str) (s : str) : list str :=
  match s with
  | [] => match cur with [] => [] | _ => [cur] end
  | c :: rest =>
      if is_linebreak c then
        cur :: match rest with
               | c' :: rest' =>
                   if ((c =? CR) && (c' =? LF))%N
                   then splitlines_from [] rest'
                   else splitlines_from [] rest
               | [] => []
               end
      else splitlines_from (cur ++ [c]) rest
  end.

Definition splitlines (s : str) : list str := splitlines_from [] s.

(** A line holds no line boundary. *)
Definition terminator_free (l : str) : Prop :=
  Forall (λ c, is_linebreak c = false) l.

(** ** Constructor arguments *)

(** An element of the collection handed to the constructor: a string, or
    any other object ([isinstance(item, str)] is false). *)
Inductive pyobj : Type :=
  | PyStr (s : str)
  | PyOther.

(** The [lines] argument: a string, an iterable, or an object that is
    neither. *)
Inductive lines_arg : Type :=
  | LinesStr (s : str)
  | LinesIter (items : list pyobj)
  | LinesOther.

(** ** The class *)

Record NumberedLines : Type := mkNL {
  lines : list str;
  index : list Z
}.

(** [list(range(n))] *)
Definition range (n : nat) : list Z := Z.of_nat <$> seq 0 n.

(** The comprehension of [__init__]: split every string item, skip the
    others, flatten. *)
Definition flatten_items (items : list pyobj) : list str :=
  items ≫= (λ item, match item with
                     | PyStr s => splitlines s
                     | PyOther => []
                     end).

(** [NumberedLines.__init__] *)
Definition init (arg : lines_arg) (idx : option (list Z)) : result NumberedLines :=
  lines_list ←
    (match arg with
    | LinesStr s => Ok (splitlines s)
    | LinesIter items => Ok (flatten_items items)
    | LinesOther => Raise TypeError
    end);
  index_list ←
    (match idx with
    | None => Ok (range (length lines_list))
    | Some index_list =>
        if bool_decide (length index_list ≠ length lines_list)
        then Raise ValueError
        else Ok index_list
    end);
  Ok (mkNL lines_list index_list).

(** The call [NumberedLines(ls, ix)] made by every transformation: the
    list of strings [ls] goes through the iterable branch. *)
Definition derive (ls : list str) (ix : list Z) : result NumberedLines :=
  init (LinesIter (PyStr <$> ls)) (Some ix).

(** [__len__] *)
Definition len (X : NumberedLines) : nat := length (lines X).

(** [__iter__], as the list it yields *)
Definition iter (X : NumberedLines) : list str := lines X.

(** ** Sequence indexing *)

(** [l[i]] on a Python list: a negative position counts from the end,
    anything outside [-len, len) raises [IndexError]. *)
Definition list_getitem {A} (l : list A) (i : Z) : result A :=
  let n := Z.of_nat (length l) in
  let j := if i <? 0 then i + n else i in
  if (j <? 0) || (n <=? j) then Raise IndexError
  else match l !! Z.to_nat j with
       | Some x => Ok x
       | None => Raise IndexError
       end.

(** A slice object [slice(start, stop, step)]; [None] is an omitted
    field. *)
Record slice : Type := mkSlice {
  start : option Z;
  stop : option Z;
  step : option Z
}.

(** [slice.indices(n)]: the step defaults to 1 and must not be 0; the
    bounds are clamped into the list. *)
Definition slice_indices (sl : slice) (n : Z) : result (Z * Z * Z) :=
  let st := default 1 (step sl) in
  if st =? 0 then Raise ValueError
  else
    let lower := if st <? 0 then -1 else 0 in
    let upper := if st <? 0 then n - 1 else n in
    let adjust v := if v <? 0 then Z.max (v + n) lower else Z.min v upper in
    let a := match start sl with
             | None => if st <? 0 then upper else lower
             | Some v => adjust v
             end in
    let b := match stop sl with
             | None => if st <? 0 then lower else upper
             | Some v => adjust v
             end in
    Ok (a, b, st).

(** The number of positions a slice selects. *)
Definition slice_length (a b st : Z) : Z :=
  if st <? 0 then (if b <? a then (a - b - 1) / (- st) + 1 else 0)
  else (if a <? b then (b - a - 1) / st + 1 else 0).

(** The positions [start + k * step] a slice selects, in the order the
    slice visits them. *)
Definition slice_positions (sl : slice) (n : nat) : result (list nat) :=
  '(a, b, st) ← slice_indices sl (Z.of_nat n);
  Ok ((λ k, Z.to_nat (a + Z.of_nat k * st))
        <$> seq 0 (Z.to_nat (slice_length a b st))).

(** The elements of [l] at the positions [ps]. *)
Definition pick {A} (l : list A) (ps : list nat) : list A :=
  omap (λ p, l !! p) ps.

(** [l[sl]] on a Python list *)
Definition list_getslice {A} (l : list A) (sl : slice) : result (list A) :=
  ps ← slice_positions sl (length l);
  Ok (pick l ps).

(** ** [__getitem__] *)

Inductive key : Type :=
  | KeyInt (i : Z)
  | KeySlice (sl : slice).

Inductive item : Type :=
  | ItemStr (s : str)
  | ItemLines (X : NumberedLines).

Definition getitem_slice (X : NumberedLines) (sl : slice) : result NumberedLines :=
  ls ← list_getslice (lines X) sl;
  ix ← list_getslice (index X) sl;
  derive ls ix.

Definition getitem_int (X : NumberedLines) (i : Z) : result str :=
  list_getitem (lines X) i.

Definition getitem (X : NumberedLines) (k : key) : result item :=
  match k with
  | KeySlice sl => Y ← getitem_slice X sl; Ok (ItemLines Y)
  | KeyInt i => s ← getitem_int X i; Ok (ItemStr s)
  end.

(** ** Display *)

(** Decimal digits of [n], most significant first.  [fuel] bounds the
    number of divisions by ten. *)
Fixpoint digits_aux (fuel : nat) (n : N) (acc : str) : str :=
  let acc' := (48 + n mod 10)%N :: acc in
  match fuel with
  | O => acc'
  | S fuel' => if (n <? 10)%N then acc' else digits_aux fuel' (n / 10)%N acc'
  end.

(** The decimal digits of [n >= 0] *)
Definition str_of_N (n : N) : str := digits_aux (N.to_nat (N.log2 n)) n [].

(** The decimal text of an integer, sign first. *)
Definition decimal (i : Z) : str :=
  (if i <? 0 then [45%N] else []) ++ str_of_N (Z.abs_N i).

(** The interpreter's limit on the number of digits in a conversion
    between [int] and [str], at its default
    ([sys.get_int_max_str_digits()]). *)
Definition int_max_str_digits : nat := 4300.

(** The largest [Py_ssize_t] of a 64-bit build: the largest width a
    format specification can hold. *)
Definition PY_SSIZE_T_MAX : Z := 2 ^ 63 - 1.

(** [str(i)] for an [int]: the decimal text; [ValueError] when the number
    has more digits than the limit. *)
Definition str_of_int (i : Z) : result str :=
  if (int_max_str_digits <? length (str_of_N (Z.abs_N i)))%nat
  then Raise ValueError
  else Ok (decimal i).

(** [format(i, "0{pad}d")]: sign first, then zeros up to the width, then
    the digits.  A negative [pad] puts a minus sign into the format
    specification, which is then invalid; a [pad] beyond [Py_ssize_t] has
    too many digits for a width; a number with more digits than the
    conversion limit cannot be written.  Each is a [ValueError].  Storage
    for the padded text is taken to be there. *)
Definition format_int (i : Z) (pad : Z) : result str :=
  if pad <? 0 then Raise ValueError
  else if PY_SSIZE_T_MAX <? pad then Raise ValueError
  else
    let sign : str := if i <? 0 then [45%N] else [] in
    let ds := str_of_N (Z.abs_N i) in
    if (int_max_str_digits <? length ds)%nat then Raise ValueError
    else Ok (sign ++ replicate (Z.to_nat pad - length sign - length ds) 48%N ++ ds).

(** [max(self.index) if self.index else 0] *)
Definition max_index (ix : list Z) : Z :=
  match ix with
  | [] => 0
  | i :: rest => foldl Z.max i rest
  end.

(** [NumberedLines.format] *)
Definition format (X : NumberedLines) (pad : option Z) : result (list str) :=
  pad ←
    (match pad with
     | None =>
         let max_idx := max_index (index X) in
         text ← str_of_int max_idx;
         Ok (Z.max 2 (Z.of_nat (length text)))
     | Some p => Ok p
     end);
  mapM (λ '(i, line), s ← format_int i pad; Ok (s ++ py ": " ++ line))
       (zip (index X) (lines X)).

(** ** Transformations *)

(** [NumberedLines.reset_index] *)
Definition reset_index (X : NumberedLines) : result NumberedLines :=
  derive (lines X) (range (length (lines X))).

(** The loop shared by [filter] and [filter_out]: walk the zipped pairs
    and append the kept ones. *)
Definition keep_loop (keep : str → bool) (pairs : list (Z * str))
    : list str * list Z :=
  foldl (λ '(keep_lines, keep_index) '(i, line),
           if keep line
           then (keep_lines ++ [line], keep_index ++ [i])
           else (keep_lines, keep_index))
        ([], []) pairs.

(** [NumberedLines.filter]; [regex] stands for [regex.search(line)] being
    a match. *)
Definition filter (X : NumberedLines) (regex : str → bool) : result NumberedLines :=
  let '(keep_lines, keep_index) := keep_loop regex (zip (index X) (lines X)) in
  derive keep_lines keep_index.

(** [NumberedLines.filter_out] *)
Definition filter_out (X : NumberedLines) (regex : str → bool) : result NumberedLines :=
  let '(keep_lines, keep_index) :=
    keep_loop (λ line, negb (regex line)) (zip (index X) (lines X)) in
  derive keep_lines keep_index.

(** [NumberedLines.to_list] *)
Definition to_list (X : NumberedLines) : list str := lines X.

(** ** Instances

    The values the program can hold: built by the constructor, or by a
    transformation of an instance that returned. *)
Inductive Instance : NumberedLines → Prop :=
  | Instance_init arg idx X :
      init arg idx = Ok X → Instance X
  | Instance_slice X sl Y :
      Instance X → getitem_slice X sl = Ok Y → Instance Y
  | Instance_filter X regex Y :
      Instance X → filter X regex = Ok Y → Instance Y
  | Instance_filter_out X regex Y :
      Instance X → filter_out X regex = Ok Y → Instance Y
  | Instance_reset_index X Y :
      Instance X → reset_index X = Ok Y → Instance Y.

(** The (original number, line) pairs of an instance, in order. *)
Definition entries (X : NumberedLines) : list (Z * str) :=
  zip (index X) (lines X).

(** ** Notions used in the statements *)

(** An instance is characterised by two facts: the two lists are
    equally long, and no line holds a line boundary. *)
Definition well_formed (X : NumberedLines) : Prop :=
  length (lines X) = length (index X) ∧ Forall terminator_free (lines X).

(** The lines that survive a second pass through the constructor. *)
Definition no_empty_line (ls : list str) : Prop := Forall (λ l, l ≠ []) ls.

(** The entries a filter keeps. *)
Definition kept (keep : str → bool) (pairs : list (Z * str)) : list (Z * str) :=
  base.filter (λ p, keep p.2 = true) pairs.

(** The value a string of decimal digits denotes. *)
Definition value_of_digits (ds : str) : N :=
  foldl (λ acc c, 10 * acc + (c - 48))%N 0%N ds.

(** The index written with at least [w] characters, zeros between the
    sign and the digits. *)
Definition zero_padded (w : nat) (i : Z) : str :=
  if i <? 0
  then 45%N :: replicate (w - length (decimal i)) 48%N ++ str_of_N (Z.abs_N i)
  else replicate (w - length (decimal i)) 48%N ++ decimal i.

(** The number of decimal digits of an integer (its sign apart). *)
Definition decimal_digits (i : Z) : nat := length (str_of_N (Z.abs_N i)).

(** The default width as the specification words it. *)
Definition spec_width (ix : list Z) : nat :=
  Nat.max 2 (decimal_digits (max_index ix)).

(** The default width as [format] computes it. *)
Definition code_width (ix : list Z) : Z :=
  Z.max 2 (Z.of_nat (length (decimal (max_index ix)))).

(** An integer the interpreter converts to text: fewer than
    [10 ^ int_max_str_digits] in absolute value. *)
Definition within_limit (i : Z) : Prop :=
  Z.abs i < 10 ^ Z.of_nat int_max_str_digits.

Global Instance within_limit_dec (i : Z) : Decision (within_limit i) :=
  Z.lt_dec (Z.abs i) (10 ^ Z.of_nat int_max_str_digits).




(** The text "a", an empty line, "b". *)
Definition blank_text : str := py "a" ++ [LF; LF] ++ py "b".

(** [NumberedLines("a\n\nb")] *)
Definition gap : NumberedLines := mkNL [py "a"; []; py "b"] [0; 1; 2].

(** [NumberedLines("a\nb\nc\nd")[::-1]] *)
Definition dcba : NumberedLines :=
  mkNL [py "d"; py "c"; py "b"; py "a"] [3; 2; 1; 0].

(** Unicode white space, as [\s] matches it in a [str] pattern. *)
Definition is_space (c : char) : bool :=
  ((9 <=? c) && (c <=? 13) || (28 <=? c) && (c <=? 32) || (c =? 133) ||
   (c =? 160) || (c =? 5760) || (8192 <=? c) && (c <=? 8202) ||
   (c =? 8232) || (c =? 8233) || (c =? 8239) || (c =? 8287) || (c =? 12288))%N.

(** [re.compile(r"^\s*$").search(line)] on a line without terminator *)
Definition blank (line : str) : bool := forallb is_space line.

(** [re.compile("a").search(line)]: the letter a occurs in the line. *)
Definition has_a (line : str) : bool := existsb (N.eqb 97) line.

(** [NumberedLines(["a", "b"], [5, 5])]: the same number twice. *)
Definition twice : NumberedLines := mkNL [py "a"; py "b"] [5; 5].

(** The string elements of a collection, in order. *)
Definition strings_of (items : list pyobj) : list str :=
  omap (λ item, match item with PyStr s => Some s | PyOther => None end) items.

(** The lines the splitting and flattening rule produces: a string is
    split; of a collection the strings are split one by one and the
    results concatenated; anything else produces nothing. *)
Definition produced_lines (arg : lines_arg) : option (list str) :=
  match arg with
  | LinesStr s => Some (splitlines s)
  | LinesIter items => Some (mjoin (splitlines <$> strings_of items))
  | LinesOther => None
  end.

(** [NumberedLines(["a", "b", "c", "d"])], the instance of the tests *)
Definition abcd : NumberedLines :=
  mkNL [py "a"; py "b"; py "c"; py "d"] [0; 1; 2; 3].

(** ** [__repr__] *)

(** [sep.join(parts)] *)
Fixpoint join (sep : str) (parts : list str) : str :=
  match parts with
  | [] => []
  | p :: rest =>
      match rest with
      | [] => p
      | _ :: _ => p ++ sep ++ join sep rest
      end
  end.

(** The marker line of a shortened preview, the one-character string
    HORIZONTAL ELLIPSIS. *)
Definition ellipsis : str := [8230%N].

(** The list [preview] that [__repr__] builds: every formatted line of a
    short instance, or the formatted first [head] lines, the marker, and
    the formatted last [tail] lines. *)
Definition preview (X : NumberedLines) : result (list str) :=
  let n := len X in
  let head := 5%nat in
  let tail := 5%nat in
  let buffer := 20%nat in
  if bool_decide (n ≤ head + tail + buffer)%nat then format X None
  else
    first ← getitem_slice X (mkSlice None (Some (Z.of_nat head)) None);
    first_lines ← format first None;
    last ← getitem_slice X (mkSlice (Some (- Z.of_nat tail)) None None);
    last_lines ← format last None;
    Ok (first_lines ++ [ellipsis] ++ last_lines).

(** [NumberedLines.__repr__] *)
Definition repr (X : NumberedLines) : result str :=
  preview ← preview X;
  Ok (py "NumberedLines([" ++ [LF] ++ py "  "
        ++ join (LF :: py "  ") preview ++ [LF] ++ py "])").

(** ** Derived instances

    What slicing and filtering make of an instance [X0]; [reset_index] is
    left out, it gives up the numbers of [X0]. *)
Inductive Derived (X0 : NumberedLines) : NumberedLines → Prop :=
  | Derived_refl : Derived X0 X0
  | Derived_slice X sl Y :
      Derived X0 X → getitem_slice X sl = Ok Y → Derived X0 Y
  | Derived_filter X regex Y :
      Derived X0 X → filter X regex = Ok Y → Derived X0 Y
  | Derived_filter_out X regex Y :
      Derived X0 X → filter_out X regex = Ok Y → Derived X0 Y.

(** The formatted lines of [format()] with the default width. *)
Definition formatted (X : NumberedLines) : list str :=
  (λ '(i, line), zero_padded (spec_width (index X)) i ++ py ": " ++ line)
    <$> entries X.

(** The slices [l[::-1]], [l[:]], [l[:k]] and [l[-k:]]. *)
Definition backwards : slice := mkSlice None None (Some (-1)).
Definition everything : slice := mkSlice None None None.
Definition up_to (k : nat) : slice := mkSlice None (Some (Z.of_nat k)) None.
Definition last_of (k : nat) : slice := mkSlice (Some (- Z.of_nat k)) None None.

(** [NumberedLines(["x"] * 31)], an instance too long for a full
    preview. *)
Definition xs31 : NumberedLines := mkNL (replicate 31 (py "x")) (range 31).

(** ** Running the code *)

Example init_abc :
  init (LinesStr (py "a" ++ [LF] ++ py "b" ++ [LF] ++ py "c")) None
  = Ok (mkNL [py "a"; py "b"; py "c"] [0; 1; 2]).
Proof. reflexivity. Qed.

Example splitlines_crlf :
  splitlines (py "a" ++ [CR; LF] ++ py "b" ++ [CR] ++ [LF; LF])
  = [py "a"; py "b"; []].
Proof. reflexivity. Qed.

Example splitlines_empty : splitlines [] = [].
Proof. reflexivity. Qed.

Example test_slice_preserves_index :
  getitem_slice abcd (mkSlice (Some 1) (Some 3) None)
  = Ok (mkNL [py "b"; py "c"] [1; 2]).
Proof. reflexivity. Qed.

Example slice_reverse :
  getitem_slice abcd (mkSlice None None (Some (-1)))
  = Ok (mkNL [py "d"; py "c"; py "b"; py "a"] [3; 2; 1; 0]).
Proof. reflexivity. Qed.

Example slice_step2 :
  getitem_slice abcd (mkSlice (Some (-3)) (Some 100) (Some 2))
  = Ok (mkNL [py "b"; py "d"] [1; 3]).
Proof. reflexivity. Qed.

Example format_abcd :
  format abcd None = Ok [py "00: a"; py "01: b"; py "02: c"; py "03: d"].
Proof. reflexivity. Qed.

Example format_neg :
  format (mkNL [py "a"; py "b"] [-5; 123]) None = Ok [py "-05: a"; py "123: b"].
Proof. reflexivity. Qed.

Example str_of_int_ex :
  str_of_int (-1204) = Ok (py "-1204") ∧ str_of_int 0 = Ok (py "0")
  ∧ str_of_int 99 = Ok (py "99") ∧ str_of_int 100 = Ok (py "100").
Proof. repeat split; reflexivity. Qed.

(** ** Line splitting *)

Section Splitlines.

Lemma splitlines_from_scan (l cur s : str) :
  terminator_free l →
  splitlines_from cur (l ++ s) = splitlines_from (cur ++ l) s.
Proof.
  intros Hl. revert cur.
  induction Hl as [|c l Hc _ IH]; intros cur; simpl.
  - by rewrite app_nil_r.
  - rewrite Hc, IH, <- app_assoc. done.
Qed.

(** A non-empty line without a boundary is split into itself. *)
Lemma splitlines_line (l : str) :
  terminator_free l → l ≠ [] → splitlines l = [l].
Proof.
  intros Hl Hne. unfold splitlines.
  pose proof (splitlines_from_scan l [] [] Hl) as Hscan.
  rewrite app_nil_r in Hscan. rewrite Hscan. simpl. by destruct l.
Qed.

(** A line followed by LF is split off, whatever follows. *)
Lemma splitlines_line_LF (l s : str) :
  terminator_free l →
  splitlines (l ++ LF :: s) = l :: splitlines s.
Proof.
  intros Hl. unfold splitlines.
  rewrite splitlines_from_scan by done. simpl.
  by destruct s.
Qed.

Lemma splitlines_from_terminator_free (n : nat) :
  ∀ (s cur : str),
    (length s ≤ n)%nat → terminator_free cur →
    Forall terminator_free (splitlines_from cur s).
Proof.
  induction n as [|n IH]; intros [|c rest] cur Hn Hcur; simpl in *;
    try lia;
    try (destruct cur; [constructor | by apply Forall_singleton]).
  destruct (is_linebreak c) eqn:Hc.
  - constructor; [done|].
    destruct rest as [|c' rest']; [constructor|].
    destruct ((c =? CR)%N && (c' =? LF)%N);
      apply IH; simpl in *; try lia; constructor.
  - apply IH; [lia|]. apply Forall_app; split; [done|].
    by repeat constructor.
Qed.

(** Every line [splitlines] yields is free of line boundaries. *)
Lemma splitlines_terminator_free (s : str) :
  Forall terminator_free (splitlines s).
Proof.
  apply (splitlines_from_terminator_free (length s)); [lia|constructor].
Qed.

End Splitlines.

(** ** The constructor on lists of lines *)

Section Constructor.

Lemma filter_length_eq {A} (P : A → Prop) `{!∀ x, Decision (P x)} (l : list A) :
  length (base.filter P l) = length l → Forall P l.
Proof.
  induction l as [|x l IH]; [constructor|].
  rewrite filter_cons. pose proof (length_filter P l).
  case_decide; simpl; intros Hlen; [|lia].
  constructor; [done|]. apply IH. lia.
Qed.

Lemma filter_Forall_id {A} (P : A → Prop) `{!∀ x, Decision (P x)} (l : list A) :
  Forall P l → base.filter P l = l.
Proof.
  induction 1 as [|x l Hx _ IH]; [done|].
  by rewrite filter_cons_True, IH.
Qed.

(** Splitting lines again keeps the non-empty ones and drops the empty
    ones: [str.splitlines] of the empty string is the empty list. *)
Lemma flatten_lines (ls : list str) :
  Forall terminator_free ls →
  flatten_items (PyStr <$> ls) = base.filter (λ l, l ≠ []) ls.
Proof.
  unfold flatten_items.
  induction 1 as [|l ls Hl _ IH]; [done|].
  rewrite fmap_cons, bind_cons, IH, filter_cons.
  destruct l as [|c l]; [done|].
  rewrite decide_True by done.
  by rewrite splitlines_line.
Qed.

Lemma flatten_terminator_free (items : list pyobj) :
  Forall terminator_free (flatten_items items).
Proof.
  unfold flatten_items.
  induction items as [|[s|] items IH]; [constructor| |done].
  rewrite bind_cons. apply Forall_app; split; [|done].
  apply splitlines_terminator_free.
Qed.

(** The only error a derived construction can raise is the length
    mismatch. *)
Lemma derive_error (ls : list str) (ix : list Z) (e : exn) :
  derive ls ix = Raise e → e = ValueError.
Proof.
  unfold derive, init; simpl. case_bool_decide; simpl; congruence.
Qed.

(** What a derived construction does with lines that are already
    split. *)
Lemma derive_spec (ls : list str) (ix : list Z) :
  Forall terminator_free ls →
  derive ls ix =
    if decide (length ix = length (base.filter (λ l : str, l ≠ []) ls))
    then Ok (mkNL (base.filter (λ l : str, l ≠ []) ls) ix)
    else Raise ValueError.
Proof.
  intros Hls. unfold derive, init; simpl.
  rewrite flatten_lines by done.
  case_bool_decide; case_decide; simpl; done.
Qed.

(** When lines and numbers are equally long, as they are in every
    transformation, the construction succeeds exactly when no line is
    empty, and then stores both lists as they are. *)
Lemma derive_same_length (ls : list str) (ix : list Z) :
  Forall terminator_free ls →
  length ix = length ls →
  derive ls ix =
    if decide (no_empty_line ls) then Ok (mkNL ls ix) else Raise ValueError.
Proof.
  intros Hls Hlen. rewrite derive_spec by done.
  case_decide as Hf; case_decide as Hne; try done.
  - by rewrite filter_Forall_id.
  - exfalso. apply Hne. unfold no_empty_line.
    eapply (filter_length_eq (λ l : str, l ≠ [])). congruence.
  - exfalso. apply Hf. by rewrite filter_Forall_id.
Qed.

Lemma derive_Ok (ls : list str) (ix : list Z) (Y : NumberedLines) :
  Forall terminator_free ls →
  length ix = length ls →
  derive ls ix = Ok Y →
  Y = mkNL ls ix ∧ no_empty_line ls.
Proof.
  intros Hls Hlen. rewrite derive_same_length by done.
  case_decide; [|done]. by intros [= <-].
Qed.

Lemma derive_no_empty_line (ls : list str) (ix : list Z) :
  Forall terminator_free ls →
  length ix = length ls →
  no_empty_line ls →
  derive ls ix = Ok (mkNL ls ix).
Proof.
  intros Hls Hlen Hne. rewrite derive_same_length by done.
  by rewrite decide_True.
Qed.

(** Whatever the constructor returns is well formed. *)
Lemma init_well_formed arg idx (X : NumberedLines) :
  init arg idx = Ok X → well_formed X.
Proof.
  unfold init, well_formed.
  destruct arg as [s|items|]; simpl; [| |done].
  - destruct idx as [ix|]; simpl.
    + case_bool_decide as Hlen; simpl; [done|]. intros [= <-]; simpl.
      split; [|apply splitlines_terminator_free].
      by destruct (decide (length ix = length (splitlines s))).
    + intros [= <-]; simpl.
      split; [|apply splitlines_terminator_free].
      unfold range. by rewrite length_fmap, length_seq.
  - destruct idx as [ix|]; simpl.
    + case_bool_decide as Hlen; simpl; [done|]. intros [= <-]; simpl.
      split; [|apply flatten_terminator_free].
      by destruct (decide (length ix = length (flatten_items items))).
    + intros [= <-]; simpl.
      split; [|apply flatten_terminator_free].
      unfold range. by rewrite length_fmap, length_seq.
Qed.

Lemma derive_well_formed (ls : list str) (ix : list Z) (Y : NumberedLines) :
  derive ls ix = Ok Y → well_formed Y.
Proof. apply init_well_formed. Qed.

End Constructor.

(** ** Picking positions out of a list *)

Section Pick.
Context {A : Type}.
Implicit Types (l : list A) (ps : list nat).

Lemma pick_cons l p ps :
  pick l (p :: ps) =
    match l !! p with Some x => x :: pick l ps | None => pick l ps end.
Proof. done. Qed.

Lemma pick_app l ps qs : pick l (ps ++ qs) = pick l ps ++ pick l qs.
Proof. apply omap_app. Qed.

Lemma pick_nil ps : pick (@nil A) ps = [].
Proof. induction ps as [|p ps IH]; [done|]. by rewrite pick_cons. Qed.

Lemma pick_cons_pos x l ps :
  Forall (λ q, (0 < q)%nat) ps → pick (x :: l) ps = pick l (Nat.pred <$> ps).
Proof.
  induction 1 as [|[|p] ps Hp _ IH]; [done|lia|].
  rewrite fmap_cons, !pick_cons, IH. done.
Qed.

Lemma pick_length l ps :
  Forall (λ p, (p < length l)%nat) ps → length (pick l ps) = length ps.
Proof.
  induction 1 as [|p ps Hp _ IH]; [done|]. rewrite pick_cons.
  destruct (lookup_lt_is_Some_2 l p Hp) as [x ->]. simpl. by rewrite IH.
Qed.

Lemma pick_Forall (P : A → Prop) l ps : Forall P l → Forall P (pick l ps).
Proof.
  intros Hl. induction ps as [|p ps IH]; [constructor|]. rewrite pick_cons.
  destruct (l !! p) as [x|] eqn:Hp; [|done].
  constructor; [|done]. exact (Forall_lookup_1 P l p x Hl Hp).
Qed.

Lemma pick_reverse l ps : pick l (reverse ps) = reverse (pick l ps).
Proof.
  induction ps as [|p ps IH]; [done|].
  rewrite reverse_cons, pick_app, IH, !pick_cons.
  destruct (l !! p); [by rewrite reverse_cons|by rewrite app_nil_r].
Qed.

Lemma sorted_pred ps :
  StronglySorted lt ps → Forall (λ q, (0 < q)%nat) ps →
  StronglySorted lt (Nat.pred <$> ps).
Proof.
  induction 1 as [|p ps Hs IH Hall]; intros Hpos; simpl; constructor.
  - apply IH. by inversion Hpos.
  - apply Forall_fmap, Forall_forall. intros q Hq.
    inversion Hpos as [|? ? Hp Hps]; subst.
    rewrite Forall_forall in Hall, Hps.
    specialize (Hall q Hq). specialize (Hps q Hq). simpl. lia.
Qed.

(** Increasing positions select a subsequence. *)
Lemma pick_sublist l ps : StronglySorted lt ps → pick l ps `sublist_of` l.
Proof.
  revert ps. induction l as [|x l IH]; intros ps Hs.
  - by rewrite pick_nil.
  - destruct ps as [|p ps]; [apply sublist_nil_l|].
    inversion Hs as [|? ? Hs' Hall]; subst.
    destruct p as [|p].
    + assert (Forall (λ q, (0 < q)%nat) ps) as Hpos
        by (eapply Forall_impl; [exact Hall|simpl; lia]).
      change (pick (x :: l) (0%nat :: ps)) with (x :: pick (x :: l) ps).
      rewrite pick_cons_pos by done.
      apply sublist_skip, IH. by apply sorted_pred.
    + assert (Forall (λ q, (0 < q)%nat) (S p :: ps)) as Hpos.
      { constructor; [lia|]. eapply Forall_impl; [exact Hall|simpl; lia]. }
      rewrite pick_cons_pos by done.
      apply sublist_cons, IH. by apply sorted_pred.
Qed.

Lemma sublist_reverse (l1 l2 : list A) :
  l1 `sublist_of` l2 → reverse l1 `sublist_of` reverse l2.
Proof.
  induction 1 as [|x l1 l2 _ IH|x l1 l2 _ IH]; [done| |].
  - rewrite !reverse_cons. by apply sublist_app.
  - rewrite reverse_cons. by apply sublist_inserts_r.
Qed.

(** Decreasing positions select a subsequence of the reversed list. *)
Lemma pick_sublist_reverse l ps :
  StronglySorted (flip lt) ps → pick l ps `sublist_of` reverse l.
Proof.
  intros Hs.
  rewrite <- (reverse_involutive ps), pick_reverse.
  apply sublist_reverse, pick_sublist.
  clear l. induction Hs as [|p ps Hs IH Hall]; [constructor|].
  rewrite reverse_cons. apply StronglySorted_app_2; [|done|by repeat constructor].
  intros q r Hq ->%list_elem_of_singleton.
  rewrite elem_of_reverse in Hq.
  rewrite Forall_forall in Hall. exact (Hall q Hq).
Qed.

End Pick.

Lemma pick_zip {A B} (l : list A) (k : list B) (ps : list nat) :
  length l = length k →
  pick (zip l k) ps = zip (pick l ps) (pick k ps).
Proof.
  intros Hlen. induction ps as [|p ps IH]; [done|].
  rewrite !pick_cons, IH, (lookup_zip_with pair l k p).
  destruct (l !! p) as [x|] eqn:Hl; simpl.
  - destruct (lookup_lt_is_Some_2 k p) as [y Hk].
    { rewrite <- Hlen. by eapply lookup_lt_Some. }
    by rewrite Hk.
  - apply lookup_ge_None in Hl.
    by rewrite (proj2 (lookup_ge_None k p)) by lia.
Qed.

Lemma sorted_fmap_seq {R : relation nat} (f : nat → nat) (i m : nat) :
  (∀ j k, (i ≤ j)%nat → (j < k)%nat → (k < i + m)%nat → R (f j) (f k)) →
  StronglySorted R (f <$> seq i m).
Proof.
  revert i. induction m as [|m IH]; intros i Hf; simpl; constructor.
  - apply IH. intros j k ? ? ?. apply Hf; lia.
  - apply Forall_fmap, Forall_forall. intros k Hk.
    apply elem_of_seq in Hk. simpl. apply Hf; lia.
Qed.

(** ** Slices *)

Section Slices.

Lemma progression_up (a b st k : Z) :
  0 < st → a < b → 0 ≤ k < (b - a - 1) / st + 1 →
  a ≤ a + k * st < b.
Proof.
  intros Hst Hab Hk. pose proof (Z.mul_div_le (b - a - 1) st Hst). nia.
Qed.

Lemma progression_down (a b st k : Z) :
  st < 0 → b < a → 0 ≤ k < (a - b - 1) / (- st) + 1 →
  b < a + k * st ≤ a.
Proof.
  intros Hst Hab Hk.
  pose proof (Z.mul_div_le (a - b - 1) (- st) ltac:(lia)). nia.
Qed.

Lemma slice_indices_Ok (sl : slice) (n a b st : Z) :
  0 ≤ n →
  slice_indices sl n = Ok (a, b, st) →
  st = default 1 (step sl) ∧ st ≠ 0 ∧
  (0 < st → 0 ≤ a ≤ n ∧ 0 ≤ b ≤ n) ∧
  (st < 0 → -1 ≤ a ≤ n - 1 ∧ -1 ≤ b ≤ n - 1).
Proof.
  intros Hn. unfold slice_indices.
  destruct (Z.eqb_spec (default 1 (step sl)) 0) as [|Hst]; [done|].
  intros [= <- <- <-].
  split; [done|]. split; [done|].
  destruct (Z.ltb_spec (default 1 (step sl)) 0);
    (split; [intros ?|intros ?]; try lia);
    destruct (start sl) as [v|], (stop sl) as [w|];
    repeat match goal with
           | |- context [?x <? 0] => destruct (Z.ltb_spec x 0)
           end; lia.
Qed.

(** A slice fails only on a zero step. *)
Lemma slice_positions_Raise (sl : slice) (n : nat) (e : exn) :
  slice_positions sl n = Raise e ↔ step sl = Some 0 ∧ e = ValueError.
Proof.
  unfold slice_positions, slice_indices.
  destruct (step sl) as [st|]; simpl.
  - destruct (Z.eqb_spec st 0) as [->|Hne]; simpl.
    + split; [by intros [= <-]|by intros [_ ->]].
    + split; [done|]. by intros [[= ?] _].
  - split; [done|]. by intros [? _].
Qed.

Lemma slice_positions_total (sl : slice) (n : nat) :
  step sl ≠ Some 0 → ∃ ps, slice_positions sl n = Ok ps.
Proof.
  intros Hst. destruct (slice_positions sl n) as [ps|e] eqn:E; [by eexists|].
  apply slice_positions_Raise in E as [? _]. done.
Qed.

(** The positions of a slice are inside the list; they increase for a
    positive step and decrease for a negative one. *)
Lemma slice_positions_Ok (sl : slice) (n : nat) (ps : list nat) :
  slice_positions sl n = Ok ps →
  Forall (λ p, (p < n)%nat) ps ∧
  (0 < default 1 (step sl) → StronglySorted lt ps) ∧
  (default 1 (step sl) < 0 → StronglySorted (flip lt) ps).
Proof.
  unfold slice_positions.
  destruct (slice_indices sl (Z.of_nat n)) as [[[a b] st]|e] eqn:E; simpl; [|done].
  intros [= <-].
  apply slice_indices_Ok in E as (<- & Hst & Hup & Hdown); [|lia].
  assert (∀ k : nat, (k < Z.to_nat (slice_length a b st))%nat →
            0 < st ∧ a < b ∧ a ≤ a + Z.of_nat k * st < b ∨
            st < 0 ∧ b < a ∧ b < a + Z.of_nat k * st ≤ a) as Hin.
  { intros k Hk. unfold slice_length in Hk.
    destruct (Z.ltb_spec st 0).
    - right. destruct (Z.ltb_spec b a); [|simpl in Hk; lia].
      split; [done|]. split; [done|]. apply progression_down; lia.
    - left. destruct (Z.ltb_spec a b); [|simpl in Hk; lia].
      split; [lia|]. split; [done|]. apply progression_up; lia. }
  split; [|split].
  - apply Forall_fmap, Forall_forall. intros k Hk.
    apply elem_of_seq in Hk. simpl.
    destruct (Hin k) as [(? & ? & ?)|(? & ? & ?)]; lia.
  - intros Hpos. apply sorted_fmap_seq. intros j k ? ? ?.
    destruct (Hin j) as [(? & ? & ?)|(? & ? & ?)]; [lia| |lia].
    destruct (Hin k) as [(? & ? & ?)|(? & ? & ?)]; [lia| |lia].
    nia.
  - intros Hneg. apply sorted_fmap_seq. intros j k ? ? ?. unfold flip.
    destruct (Hin j) as [(? & ? & ?)|(? & ? & ?)]; [lia|lia|].
    destruct (Hin k) as [(? & ? & ?)|(? & ? & ?)]; [lia|lia|].
    nia.
Qed.

Lemma pick_seq {A} (l : list A) (i m : nat) :
  (i + m ≤ length l)%nat → pick l (seq i m) = take m (drop i l).
Proof.
  revert i. induction m as [|m IH]; intros i Hlen; [done|].
  destruct (lookup_lt_is_Some_2 l i) as [x Hx]; [lia|].
  simpl seq. rewrite pick_cons, Hx, IH by lia.
  by rewrite (drop_S l x i Hx).
Qed.

(** A two-bound slice [l[a:b]] with bounds inside the list is the
    familiar sub-list. *)
Lemma list_getslice_take_drop {A} (l : list A) (a b : nat) :
  (a ≤ b)%nat → (b ≤ length l)%nat →
  list_getslice l (mkSlice (Some (Z.of_nat a)) (Some (Z.of_nat b)) None)
  = Ok (take (b - a) (drop a l)).
Proof.
  intros Hab Hb. unfold list_getslice, slice_positions, slice_indices. simpl.
  destruct (Z.ltb_spec (Z.of_nat a) 0); [lia|].
  destruct (Z.ltb_spec (Z.of_nat b) 0); [lia|].
  rewrite !Z.min_l by lia. simpl. f_equal.
  unfold slice_length. simpl.
  destruct (Z.ltb_spec (Z.of_nat a) (Z.of_nat b)).
  - rewrite Z.div_1_r.
    replace (Z.to_nat (Z.of_nat b - Z.of_nat a - 1 + 1)) with (b - a)%nat by lia.
    rewrite <- (pick_seq l a (b - a)) by lia. f_equal.
    replace (seq a (b - a)) with (seq (a + 0) (b - a)) by (f_equal; lia).
    rewrite <- (fmap_add_seq a 0).
    apply list_fmap_ext. intros _ k _. lia.
  - replace (b - a)%nat with 0%nat by lia. done.
Qed.

End Slices.

(** ** The transformations on well-formed values *)

Section Transformations.
Implicit Types (X Y : NumberedLines) (regex : str → bool).

Lemma keep_loop_from (keep : str → bool) (pairs : list (Z * str)) kl ki :
  foldl (λ '(keep_lines, keep_index) '(i, line),
           if keep line
           then (keep_lines ++ [line], keep_index ++ [i])
           else (keep_lines, keep_index))
        (kl, ki) pairs
  = (kl ++ (kept keep pairs).*2, ki ++ (kept keep pairs).*1).
Proof.
  revert kl ki. unfold kept.
  induction pairs as [|[i line] pairs IH]; intros kl ki; simpl.
  - by rewrite !app_nil_r.
  - rewrite filter_cons. simpl.
    destruct (keep line) eqn:Hk.
    + rewrite decide_True by done. rewrite IH, !fmap_cons, <- !app_assoc. done.
    + rewrite decide_False by congruence. apply IH.
Qed.

(** The loop of [filter] computes the kept entries, unzipped. *)
Lemma keep_loop_kept (keep : str → bool) (pairs : list (Z * str)) :
  keep_loop keep pairs = ((kept keep pairs).*2, (kept keep pairs).*1).
Proof. unfold keep_loop. by rewrite keep_loop_from. Qed.

Lemma kept_lines_terminator_free keep X :
  well_formed X → Forall terminator_free (kept keep (entries X)).*2.
Proof.
  intros [_ Htf]. apply Forall_fmap, Forall_forall.
  intros [i line] Hin. simpl.
  apply list_elem_of_filter in Hin as [_ Hin].
  apply elem_of_zip_r in Hin.
  rewrite Forall_forall in Htf. by apply Htf.
Qed.

Lemma filter_spec X regex :
  well_formed X →
  filter X regex =
    if decide (no_empty_line (kept regex (entries X)).*2)
    then Ok (mkNL (kept regex (entries X)).*2 (kept regex (entries X)).*1)
    else Raise ValueError.
Proof.
  intros HX. unfold filter. fold (entries X). rewrite keep_loop_kept.
  apply derive_same_length; [by apply kept_lines_terminator_free|].
  by rewrite !length_fmap.
Qed.

Lemma filter_out_spec X regex :
  well_formed X →
  filter_out X regex =
    let out := kept (λ line, negb (regex line)) (entries X) in
    if decide (no_empty_line out.*2)
    then Ok (mkNL out.*2 out.*1)
    else Raise ValueError.
Proof.
  intros HX. unfold filter_out. fold (entries X). rewrite keep_loop_kept.
  apply derive_same_length; [by apply kept_lines_terminator_free|].
  by rewrite !length_fmap.
Qed.

Lemma reset_index_spec X :
  well_formed X →
  reset_index X =
    if decide (no_empty_line (lines X))
    then Ok (mkNL (lines X) (range (length (lines X))))
    else Raise ValueError.
Proof.
  intros [_ Htf]. unfold reset_index.
  apply derive_same_length; [done|].
  unfold range. by rewrite length_fmap, length_seq.
Qed.

Lemma getitem_slice_spec X sl ps :
  well_formed X →
  slice_positions sl (length (lines X)) = Ok ps →
  getitem_slice X sl =
    if decide (no_empty_line (pick (lines X) ps))
    then Ok (mkNL (pick (lines X) ps) (pick (index X) ps))
    else Raise ValueError.
Proof.
  intros [Hlen Htf] Hps. unfold getitem_slice, list_getslice.
  rewrite <- Hlen, Hps. simpl.
  apply slice_positions_Ok in Hps as (Hin & _ & _).
  apply derive_same_length; [by apply pick_Forall|].
  rewrite !pick_length; [done|done|by rewrite <- Hlen].
Qed.

Lemma getitem_slice_zero_step X sl :
  step sl = Some 0 → getitem_slice X sl = Raise ValueError.
Proof.
  intros Hst. unfold getitem_slice, list_getslice.
  by rewrite (proj2 (slice_positions_Raise sl (length (lines X)) ValueError)).
Qed.

(** Every instance is well formed. *)
Lemma Instance_well_formed X : Instance X → well_formed X.
Proof.
  induction 1 as [arg idx X H|X sl Y _ _ H|X regex Y _ _ H
                 |X regex Y _ _ H|X Y _ _ H].
  - by eapply init_well_formed.
  - unfold getitem_slice in H.
    destruct (list_getslice (lines X) sl); [|done].
    destruct (list_getslice (index X) sl); [|done].
    by eapply derive_well_formed.
  - unfold filter in H. destruct (keep_loop _ _). by eapply derive_well_formed.
  - unfold filter_out in H. destruct (keep_loop _ _). by eapply derive_well_formed.
  - by eapply derive_well_formed.
Qed.

Lemma splitlines_join (ls : list str) :
  Forall terminator_free ls →
  splitlines (ls ≫= λ l, l ++ [LF]) = ls.
Proof.
  induction 1 as [|l ls Hl _ IH]; [done|].
  rewrite bind_cons, <- app_assoc. simpl.
  by rewrite splitlines_line_LF, IH.
Qed.

(** Every well-formed value is an instance: the constructor builds it
    from the text of its lines, each closed by LF, and its numbers. *)
Lemma well_formed_Instance X : well_formed X → Instance X.
Proof.
  destruct X as [ls ix]. intros [Hlen Htf]; simpl in *.
  apply (Instance_init (LinesStr (ls ≫= λ l, l ++ [LF])) (Some ix)).
  unfold init; simpl. rewrite splitlines_join by done.
  by rewrite bool_decide_false by (intros ?; congruence).
Qed.

End Transformations.

(** ** Decimal rendering *)

Section Decimal.

Lemma digits_aux_acc (fuel : nat) (n : N) (acc : str) :
  digits_aux fuel n acc = digits_aux fuel n [] ++ acc.
Proof.
  revert n acc. induction fuel as [|fuel IH]; intros n acc; simpl; [done|].
  destruct (n <? 10)%N; [done|].
  rewrite IH, (IH _ [_]), <- app_assoc. done.
Qed.

(** More fuel than needed changes nothing. *)
Lemma digits_aux_fuel (f g : nat) (n : N) (acc : str) :
  (n < 10 ^ N.of_nat (S f))%N → (f ≤ g)%nat →
  digits_aux f n acc = digits_aux g n acc.
Proof.
  revert g n acc. induction f as [|f IH]; intros g n acc Hn Hfg.
  - change (10 ^ N.of_nat 1)%N with 10%N in Hn.
    destruct g as [|g]; simpl; [done|].
    by destruct (N.ltb_spec n 10); [|lia].
  - destruct g as [|g]; [lia|]. simpl.
    destruct (N.ltb_spec n 10); [done|].
    apply IH; [|lia].
    rewrite (Nat2N.inj_succ (S f)), N.pow_succ_r' in Hn.
    apply N.Div0.div_lt_upper_bound. lia.
Qed.

Lemma log2_fuel (n : N) : (n < 10 ^ N.of_nat (S (N.to_nat (N.log2 n))))%N.
Proof.
  rewrite Nat2N.inj_succ, N2Nat.id.
  destruct (N.eq_dec n 0%N) as [->|Hn]; [done|].
  destruct (N.log2_spec n) as [_ Hlt]; [lia|].
  eapply N.lt_le_trans; [exact Hlt|].
  apply N.pow_le_mono_l. lia.
Qed.

Lemma str_of_N_fuel (n : N) (g : nat) :
  (N.to_nat (N.log2 n) ≤ g)%nat → str_of_N n = digits_aux g n [].
Proof. intros Hg. apply digits_aux_fuel; [apply log2_fuel|done]. Qed.

Lemma digits_aux_length_mono (f : nat) (a b : N) :
  (a ≤ b)%N →
  (length (digits_aux f a []) ≤ length (digits_aux f b []))%nat.
Proof.
  revert a b. induction f as [|f IH]; intros a b Hab; simpl; [done|].
  destruct (N.ltb_spec a 10), (N.ltb_spec b 10); try lia.
  - done.
  - rewrite digits_aux_acc, length_app. simpl. lia.
  - rewrite (digits_aux_acc f (a / 10)), (digits_aux_acc f (b / 10)), !length_app.
    simpl. apply Nat.add_le_mono_r, IH. by apply N.Div0.div_le_mono.
Qed.

(** A larger number never has fewer digits. *)
Lemma str_of_N_length_mono (a b : N) :
  (a ≤ b)%N → (length (str_of_N a) ≤ length (str_of_N b))%nat.
Proof.
  intros Hab.
  rewrite (str_of_N_fuel a (N.to_nat (N.log2 b))).
  - by apply digits_aux_length_mono.
  - pose proof (N.log2_le_mono a b Hab). lia.
Qed.

Lemma str_of_N_length_pos (n : N) : (1 ≤ length (str_of_N n))%nat.
Proof.
  unfold str_of_N. destruct (N.to_nat (N.log2 n)) as [|f]; simpl; [done|].
  destruct (n <? 10)%N; [done|].
  rewrite digits_aux_acc, length_app. simpl. lia.
Qed.

Lemma value_of_digits_snoc (ds : str) (c : char) :
  value_of_digits (ds ++ [c]) = (10 * value_of_digits ds + (c - 48))%N.
Proof. unfold value_of_digits. by rewrite foldl_app. Qed.

Lemma digits_aux_value (f : nat) (n : N) :
  (n < 10 ^ N.of_nat (S f))%N → value_of_digits (digits_aux f n []) = n.
Proof.
  revert n. induction f as [|f IH]; intros n Hn.
  - change (10 ^ N.of_nat 1)%N with 10%N in Hn. simpl.
    unfold value_of_digits; simpl. rewrite N.mod_small by done. lia.
  - simpl. destruct (N.ltb_spec n 10).
    + unfold value_of_digits; simpl. rewrite N.mod_small by done. lia.
    + rewrite digits_aux_acc, value_of_digits_snoc, IH.
      * pose proof (N.Div0.div_mod n 10) as E.
        rewrite (N.add_comm 48), N.add_sub. by rewrite <- E.
      * rewrite (Nat2N.inj_succ (S f)), N.pow_succ_r' in Hn.
        apply N.Div0.div_lt_upper_bound. lia.
Qed.

(** [str_of_N] writes the number it is given. *)
Lemma str_of_N_value (n : N) : value_of_digits (str_of_N n) = n.
Proof. apply digits_aux_value, log2_fuel. Qed.

Lemma decimal_nonneg (i : Z) : 0 ≤ i → decimal i = str_of_N (Z.abs_N i).
Proof. intros Hi. unfold decimal. by destruct (Z.ltb_spec i 0); [lia|]. Qed.

Lemma decimal_neg (i : Z) :
  i < 0 → decimal i = 45%N :: str_of_N (Z.abs_N i).
Proof. intros Hi. unfold decimal. by destruct (Z.ltb_spec i 0); [|lia]. Qed.

Lemma digits_aux_bounds (f : nat) (n : N) :
  (n < 10 ^ N.of_nat (S f))%N →
  (n < 10 ^ N.of_nat (length (digits_aux f n [])))%N ∧
  (0 < n → 10 ^ N.of_nat (pred (length (digits_aux f n []))) ≤ n)%N.
Proof.
  revert n. induction f as [|f IH]; intros n Hn.
  - change (10 ^ N.of_nat 1)%N with 10%N in Hn. simpl.
    change (10 ^ N.of_nat 1)%N with 10%N. change (10 ^ N.of_nat 0)%N with 1%N. lia.
  - simpl. destruct (N.ltb_spec n 10) as [Hlt|Hge].
    + simpl. change (10 ^ N.of_nat 1)%N with 10%N.
      change (10 ^ N.of_nat 0)%N with 1%N. lia.
    + rewrite digits_aux_acc, length_app. simpl length.
      rewrite Nat.add_1_r. simpl pred.
      assert (n / 10 < 10 ^ N.of_nat (S f))%N as Hdiv.
      { rewrite (Nat2N.inj_succ (S f)), N.pow_succ_r' in Hn.
        apply N.Div0.div_lt_upper_bound. lia. }
      destruct (IH (n / 10)%N Hdiv) as [Hup Hlow].
      pose proof (N.Div0.div_mod n 10) as E.
      pose proof (N.mod_lt n 10 ltac:(done)) as Hmod.
      assert (0 < n / 10)%N as Hpos.
      { apply N.div_str_pos. lia. }
      specialize (Hlow Hpos).
      set (d := length (digits_aux f (n / 10) [])) in *.
      assert (1 ≤ d)%nat as Hd.
      { unfold d. destruct f; simpl; [lia|].
        destruct (n / 10 <? 10)%N; simpl; [lia|].
        rewrite digits_aux_acc, length_app. simpl. lia. }
      rewrite Nat2N.inj_succ, N.pow_succ_r'.
      split; [lia|]. intros _.
      replace (N.of_nat d) with (N.succ (N.of_nat (pred d))) by lia.
      rewrite N.pow_succ_r'. clear IH Hn Hdiv Hup.
      set (p := (10 ^ N.of_nat (pred d))%N) in *. clearbody p.
      revert Hlow E. generalize (n / 10)%N (n mod 10)%N. intros q r Hlow E. lia.
Qed.

(** [decimal_digits] is the number of decimal digits: a positive [n] with
    [d] digits lies in [10^(d-1), 10^d). *)
Lemma decimal_digits_bounds (i : Z) :
  0 < i →
  10 ^ Z.of_nat (pred (decimal_digits i)) ≤ i < 10 ^ Z.of_nat (decimal_digits i).
Proof.
  intros Hi. unfold decimal_digits, str_of_N.
  destruct (digits_aux_bounds (N.to_nat (N.log2 (Z.abs_N i))) (Z.abs_N i)
              (log2_fuel _)) as [Hup Hlow].
  specialize (Hlow ltac:(lia)).
  set (d := length (digits_aux _ _ _)) in *.
  apply N2Z.inj_lt in Hup. apply N2Z.inj_le in Hlow.
  rewrite N2Z.inj_pow, nat_N_Z in Hup, Hlow.
  rewrite N2Z.inj_abs_N in Hup, Hlow. simpl in Hup, Hlow. lia.
Qed.

End Decimal.

(** ** Formatting *)

Section Format.

Lemma str_of_N_zero : str_of_N 0 = [48%N].
Proof. reflexivity. Qed.

(** At most [d] digits: below [10 ^ d]. *)
Lemma str_of_N_length_le (n : N) (d : nat) :
  (1 ≤ d)%nat → (length (str_of_N n) ≤ d)%nat ↔ (n < 10 ^ N.of_nat d)%N.
Proof.
  intros Hd.
  destruct (digits_aux_bounds (N.to_nat (N.log2 n)) n (log2_fuel n)) as [Hup Hlow].
  fold (str_of_N n) in Hup, Hlow.
  split.
  - intros Hlen. eapply N.lt_le_trans; [exact Hup|].
    apply N.pow_le_mono_r; lia.
  - intros Hn. destruct (decide (length (str_of_N n) ≤ d)%nat) as [|Hgt]; [done|].
    exfalso.
    destruct (N.eq_dec n 0%N) as [->|Hpos].
    { rewrite str_of_N_zero in Hgt. simpl in Hgt. lia. }
    specialize (Hlow ltac:(lia)).
    assert (10 ^ N.of_nat d ≤ 10 ^ N.of_nat (pred (length (str_of_N n))))%N
      by (apply N.pow_le_mono_r; lia).
    lia.
Qed.

Lemma within_limit_length (i : Z) :
  within_limit i ↔ (length (str_of_N (Z.abs_N i)) ≤ int_max_str_digits)%nat.
Proof.
  rewrite str_of_N_length_le by (unfold int_max_str_digits; lia).
  unfold within_limit. generalize int_max_str_digits. intros d.
  assert (Z.of_N (10 ^ N.of_nat d) = 10 ^ Z.of_nat d) as Hpow
    by (by rewrite N2Z.inj_pow, nat_N_Z).
  pose proof (N2Z.inj_abs_N i) as Habs.
  pose proof (N2Z.inj_lt (Z.abs_N i) (10 ^ N.of_nat d)) as Hlt.
  rewrite Hpow, Habs in Hlt. by symmetry.
Qed.

Lemma within_limit_zero : within_limit 0.
Proof.
  apply within_limit_length. simpl. unfold int_max_str_digits. lia.
Qed.

Lemma limit_ltb (i : Z) :
  (int_max_str_digits <? length (str_of_N (Z.abs_N i)))%nat
  = bool_decide (¬ within_limit i).
Proof.
  pose proof (within_limit_length i) as Hiff.
  destruct (Nat.ltb_spec int_max_str_digits (length (str_of_N (Z.abs_N i)))).
  - rewrite bool_decide_true; [done|]. rewrite Hiff. lia.
  - rewrite bool_decide_false; [done|]. intros Hn. by apply Hn, Hiff.
Qed.

Lemma str_of_int_within (i : Z) : within_limit i → str_of_int i = Ok (decimal i).
Proof.
  intros Hi. unfold str_of_int. rewrite limit_ltb.
  rewrite bool_decide_false; [done|]. intros Hn. by apply Hn.
Qed.

Lemma str_of_int_over (i : Z) : ¬ within_limit i → str_of_int i = Raise ValueError.
Proof. intros Hi. unfold str_of_int. by rewrite limit_ltb, bool_decide_true. Qed.

Lemma format_int_Ok (i pad : Z) :
  0 ≤ pad ≤ PY_SSIZE_T_MAX → within_limit i →
  format_int i pad = Ok (zero_padded (Z.to_nat pad) i).
Proof.
  intros Hpad Hi. unfold format_int, zero_padded. rewrite limit_ltb.
  rewrite bool_decide_false by (intros Hn; by apply Hn).
  destruct (Z.ltb_spec pad 0); [lia|].
  destruct (Z.ltb_spec PY_SSIZE_T_MAX pad); [lia|].
  destruct (Z.ltb_spec i 0).
  - rewrite decimal_neg by done. simpl.
    replace (Z.to_nat pad - 1 - length (str_of_N (Z.abs_N i)))%nat
      with (Z.to_nat pad - S (length (str_of_N (Z.abs_N i))))%nat by lia.
    done.
  - rewrite decimal_nonneg by done. simpl.
    by rewrite Nat.sub_0_r.
Qed.

Lemma format_int_negative_pad (i pad : Z) :
  pad < 0 → format_int i pad = Raise ValueError.
Proof. intros Hpad. unfold format_int. by destruct (Z.ltb_spec pad 0); [|lia]. Qed.

Lemma format_int_over (i pad : Z) :
  ¬ within_limit i → format_int i pad = Raise ValueError.
Proof.
  intros Hi. unfold format_int. rewrite limit_ltb, bool_decide_true by done.
  destruct (pad <? 0); [done|]. by destruct (PY_SSIZE_T_MAX <? pad).
Qed.

(** What [format_int] returned: the width was a width, the number could
    be written, and the text is the padded number. *)
Lemma format_int_Ok_inv (i pad : Z) (s : str) :
  format_int i pad = Ok s →
  0 ≤ pad ≤ PY_SSIZE_T_MAX ∧ within_limit i ∧ s = zero_padded (Z.to_nat pad) i.
Proof.
  intros Hs.
  assert (0 ≤ pad ≤ PY_SSIZE_T_MAX) as Hpad.
  { unfold format_int in Hs.
    destruct (Z.ltb_spec pad 0); [done|].
    destruct (Z.ltb_spec PY_SSIZE_T_MAX pad); [done|]. lia. }
  destruct (decide (within_limit i)) as [Hi|Hi].
  - rewrite format_int_Ok in Hs by done. by injection Hs as <-.
  - by rewrite format_int_over in Hs.
Qed.

Lemma format_int_Raise (i pad : Z) (e : exn) :
  format_int i pad = Raise e → e = ValueError.
Proof.
  unfold format_int.
  destruct (pad <? 0); [congruence|].
  destruct (PY_SSIZE_T_MAX <? pad); [congruence|].
  destruct (int_max_str_digits <? _)%nat; congruence.
Qed.

Lemma foldl_max_ge (a : Z) (l : list Z) :
  a ≤ foldl Z.max a l ∧ Forall (λ x, x ≤ foldl Z.max a l) l.
Proof.
  revert a. induction l as [|x l IH]; intros a; simpl; [by split|].
  destruct (IH (Z.max a x)) as [Ha Hl].
  split; [lia|]. constructor; [lia|done].
Qed.

Lemma max_index_ge (ix : list Z) : Forall (λ i, i ≤ max_index ix) ix.
Proof.
  destruct ix as [|i ix]; [constructor|]. simpl.
  destruct (foldl_max_ge i ix). by constructor.
Qed.

Lemma foldl_max_elem (a : Z) (l : list Z) :
  foldl Z.max a l = a ∨ foldl Z.max a l ∈ l.
Proof.
  revert a. induction l as [|x l IH]; intros a; simpl; [by left|].
  destruct (IH (Z.max a x)) as [->|Hin].
  - destruct (Z.max_spec a x) as [[_ ->]|[_ ->]]; [right; left|by left].
  - right. by right.
Qed.

Lemma max_index_elem (ix : list Z) : ix ≠ [] → max_index ix ∈ ix.
Proof.
  destruct ix as [|i ix]; [done|]. intros _. simpl.
  destruct (foldl_max_elem i ix) as [->|Hin]; [left|by right].
Qed.



(** Counting the minus sign of a negative maximum changes no output:
    every index is then at least as long as the maximum. *)
Lemma zero_padded_widths (ix : list Z) (i : Z) :
  i ≤ max_index ix →
  zero_padded (Z.to_nat (code_width ix)) i = zero_padded (spec_width ix) i.
Proof.
  intros Hi. unfold code_width, spec_width, decimal_digits.
  set (m := max_index ix) in *.
  destruct (Z.ltb_spec m 0) as [Hm|Hm].
  - rewrite (decimal_neg m) by done.
    unfold zero_padded. destruct (Z.ltb_spec i 0); [|lia].
    rewrite decimal_neg by lia.
    pose proof (str_of_N_length_mono (Z.abs_N m) (Z.abs_N i) ltac:(lia)).
    pose proof (str_of_N_length_pos (Z.abs_N m)).
    simpl length in *.
    do 2 f_equal. f_equal. lia.
  - rewrite (decimal_nonneg m) by done. f_equal. lia.
Qed.

Lemma code_width_bounds (ix : list Z) :
  within_limit (max_index ix) → 0 ≤ code_width ix ≤ PY_SSIZE_T_MAX.
Proof.
  intros Hm%within_limit_length. unfold code_width, decimal.
  rewrite length_app.
  assert (length (if (max_index ix <? 0)%Z then [45%N] else []) ≤ 1)%nat
    by (destruct (max_index ix <? 0)%Z; simpl; lia).
  unfold int_max_str_digits in Hm. unfold str, char in *.
  set (d := length (str_of_N (Z.abs_N (max_index ix)))) in *. clearbody d.
  set (sg := length (if (max_index ix <? 0)%Z then [45%N] else [])) in *.
  clearbody sg.
  change PY_SSIZE_T_MAX with 9223372036854775807. lia.
Qed.

Lemma mapM_Ok {A B} (f : A → result B) (g : A → B) (l : list A) :
  Forall (λ x, f x = Ok (g x)) l → mapM f l = Ok (g <$> l).
Proof.
  induction 1 as [|x l Hx _ IH]; [done|]. simpl. by rewrite Hx, IH.
Qed.

Lemma mapM_Ok_inv {A B} (f : A → result B) (g : A → B) (l : list A)
    (out : list B) :
  (∀ x y, x ∈ l → f x = Ok y → y = g x) →
  mapM f l = Ok out → out = g <$> l.
Proof.
  revert out. induction l as [|x l IH]; intros out Hg; simpl.
  - by intros [= <-].
  - destruct (f x) as [y|] eqn:Hx; simpl; [|done].
    destruct (mapM f l) as [k|] eqn:Hl; simpl; [|done].
    intros [= <-]. simpl. f_equal.
    + apply Hg; [left|done].
    + apply IH; [|done]. intros x' y' Hin. apply Hg. by right.
Qed.

Lemma mapM_Raise {A B} (f : A → result B) (l : list A) :
  (∀ x e, f x = Raise e → e = ValueError) →
  Exists (λ x, f x = Raise ValueError) l → mapM f l = Raise ValueError.
Proof.
  intros Hf. induction 1 as [x l Hx|x l _ IH]; simpl.
  - by rewrite Hx.
  - destruct (f x) as [y|e] eqn:Hx; simpl.
    + by rewrite IH.
    + by rewrite (Hf x e Hx).
Qed.

(** The text of one formatted line. *)
Lemma format_line_Raise (pad : Z) (p : Z * str) (e : exn) :
  (let '(i, line) := p in s ← format_int i pad; Ok (s ++ py ": " ++ line))
  = Raise e → e = ValueError.
Proof.
  destruct p as [i line].
  destruct (format_int i pad) as [s|e'] eqn:Hs; simpl; [done|].
  intros [= <-]. by eapply format_int_Raise.
Qed.

(** [format()] with the default width returns when every number can be
    written. *)
Lemma format_None (X : NumberedLines) :
  Forall within_limit (index X) →
  format X None =
    Ok ((λ '(i, line), zero_padded (spec_width (index X)) i ++ py ": " ++ line)
          <$> zip (index X) (lines X)).
Proof.
  intros Hall.
  assert (within_limit (max_index (index X))) as Hmax.
  { destruct (index X) as [|i ix] eqn:Hix; [apply within_limit_zero|].
    rewrite Forall_forall in Hall. apply Hall, max_index_elem. done. }
  unfold format. rewrite str_of_int_within by done. cbn [mbind result_bind].
  fold (code_width (index X)).
  apply mapM_Ok, Forall_forall. intros [i line] Hin.
  apply elem_of_zip_l in Hin.
  rewrite format_int_Ok;
    [|by apply code_width_bounds|by rewrite Forall_forall in Hall; apply Hall].
  simpl. rewrite zero_padded_widths; [done|].
  pose proof (max_index_ge (index X)) as Hge.
  rewrite Forall_forall in Hge. by apply Hge.
Qed.

(** What [format()] returned are the formatted lines. *)
Lemma format_None_Ok_inv (X : NumberedLines) (out : list str) :
  format X None = Ok out →
  out = (λ '(i, line), zero_padded (spec_width (index X)) i ++ py ": " ++ line)
          <$> zip (index X) (lines X).
Proof.
  unfold format.
  destruct (str_of_int (max_index (index X))) as [text|] eqn:Hmax;
    cbn [mbind result_bind]; [|done].
  assert (text = decimal (max_index (index X))) as ->.
  { unfold str_of_int in Hmax.
    destruct (int_max_str_digits <? _)%nat; [done|]. by injection Hmax. }
  fold (code_width (index X)). apply mapM_Ok_inv.
  intros [i line] s Hin Hs.
  destruct (format_int i (code_width (index X))) as [t|] eqn:Ht;
    simpl in Hs; [|done].
  injection Hs as <-.
  apply format_int_Ok_inv in Ht as (_ & _ & ->).
  rewrite zero_padded_widths; [done|].
  apply elem_of_zip_l in Hin.
  pose proof (max_index_ge (index X)) as Hge.
  rewrite Forall_forall in Hge. by apply Hge.
Qed.

(** [format()] raises when a number of an instance cannot be written. *)
Lemma format_None_over (X : NumberedLines) :
  well_formed X → ¬ Forall within_limit (index X) →
  format X None = Raise ValueError.
Proof.
  intros [Hlen _] Hover. unfold format.
  destruct (decide (within_limit (max_index (index X)))) as [Hmax|Hmax];
    [|by rewrite str_of_int_over].
  rewrite str_of_int_within by done. cbn [mbind result_bind].
  apply mapM_Raise; [intros p e; apply format_line_Raise|].
  apply not_Forall_Exists in Hover; [|apply _].
  apply Exists_exists in Hover as (i & Hin & Hi).
  apply list_elem_of_lookup in Hin as [k Hk].
  destruct (lookup_lt_is_Some_2 (lines X) k) as [line Hline].
  { rewrite Hlen. by eapply lookup_lt_Some. }
  apply Exists_exists. exists (i, line). split.
  - apply list_elem_of_lookup. exists k.
    apply lookup_zip_with_Some. by exists i, line.
  - by rewrite format_int_over.
Qed.

(** What [format(pad)] returned are the lines padded to [pad]. *)
Lemma format_Some_Ok_inv (X : NumberedLines) (pad : Z) (out : list str) :
  format X (Some pad) = Ok out →
  out = (λ '(i, line), zero_padded (Z.to_nat pad) i ++ py ": " ++ line)
          <$> zip (index X) (lines X).
Proof.
  unfold format. cbn [mbind result_bind]. apply mapM_Ok_inv.
  intros [i line] s _ Hs.
  destruct (format_int i pad) as [t|] eqn:Ht; simpl in Hs; [|done].
  injection Hs as <-.
  by apply format_int_Ok_inv in Ht as (_ & _ & ->).
Qed.

End Format.

(** ** Concrete instances *)

Lemma gap_init : init (LinesStr blank_text) None = Ok gap.
Proof. reflexivity. Qed.

Lemma gap_Instance : Instance gap.
Proof. exact (Instance_init _ _ _ gap_init). Qed.

Lemma abcd_init :
  init (LinesIter [PyStr (py "a"); PyStr (py "b"); PyStr (py "c"); PyStr (py "d")])
       None = Ok abcd.
Proof. reflexivity. Qed.

Lemma abcd_Instance : Instance abcd.
Proof. exact (Instance_init _ _ _ abcd_init). Qed.

Example test_filter_out :
  init (LinesIter [PyStr (py "x"); PyStr (py "   "); PyStr (py "y")]) None
    = Ok (mkNL [py "x"; py "   "; py "y"] [0; 1; 2]) ∧
  filter_out (mkNL [py "x"; py "   "; py "y"] [0; 1; 2]) blank
    = Ok (mkNL [py "x"; py "y"] [0; 2]).
Proof. split; reflexivity. Qed.

Example test_reset_index :
  getitem_slice (mkNL [py "a"; py "b"; py "c"] [0; 1; 2]) (mkSlice (Some 1) None None)
    = Ok (mkNL [py "b"; py "c"] [1; 2]) ∧
  reset_index (mkNL [py "b"; py "c"] [1; 2]) = Ok (mkNL [py "b"; py "c"] [0; 1]).
Proof. split; reflexivity. Qed.

(** ** Slicing *)

(** On an instance without an empty line a slice with a non-zero step
    returns, and slices lines and numbers alike. *)
Lemma getitem_slice_no_empty_line (X : NumberedLines) (sl : slice) :
  Instance X → no_empty_line (lines X) → step sl ≠ Some 0 →
  ∃ Y, getitem_slice X sl = Ok Y ∧
       list_getslice (index X) sl = Ok (index Y) ∧
       list_getslice (lines X) sl = Ok (lines Y).
Proof.
  intros HX%Instance_well_formed Hne Hst.
  destruct (slice_positions_total sl (length (lines X)) Hst) as [ps Hps].
  exists (mkNL (pick (lines X) ps) (pick (index X) ps)).
  rewrite (getitem_slice_spec X sl ps HX Hps).
  rewrite decide_True by (by apply pick_Forall).
  unfold list_getslice. destruct HX as [<- _]. by rewrite Hps.
Qed.

(** C1: slicing an instance that holds an empty line.  The instance is
    what the constructor returns for the text "a", empty line, "b"; the
    slice [0:3] of its lines and of its numbers are both the whole lists;
    [X[0:3]] raises [ValueError] instead of returning them. *)
Theorem slice_with_empty_line_raises :
  init (LinesStr blank_text) None = Ok gap ∧
  list_getslice (lines gap) (mkSlice (Some 0) (Some 3) None) = Ok (lines gap) ∧
  list_getslice (index gap) (mkSlice (Some 0) (Some 3) None) = Ok (index gap) ∧
  getitem_slice gap (mkSlice (Some 0) (Some 3) None) = Raise ValueError.
Proof. repeat split; reflexivity. Qed.

(** ** Totality *)

Lemma to_list_total (X : NumberedLines) : to_list X = lines X.
Proof. done. Qed.

(** [format()] returns whenever every number has at most 4300 digits,
    empty lines or not. *)
Lemma format_total (X : NumberedLines) :
  Forall within_limit (index X) → is_ok (format X None) = true.
Proof. intros Hall. by rewrite format_None. Qed.

(** The transformations return on instances without an empty line. *)
Lemma transformations_total_no_empty_line (X : NumberedLines) regex sl :
  Instance X → no_empty_line (lines X) → step sl ≠ Some 0 →
  is_ok (getitem_slice X sl) = true ∧ is_ok (filter X regex) = true ∧
  is_ok (filter_out X regex) = true ∧ is_ok (reset_index X) = true.
Proof.
  intros HX Hne Hst.
  assert (∀ keep, no_empty_line (kept keep (entries X)).*2) as Hkept.
  { intros keep. apply Forall_fmap, Forall_forall. intros [i line] Hin. simpl.
    apply list_elem_of_filter in Hin as [_ Hin]. apply elem_of_zip_r in Hin.
    unfold no_empty_line in Hne. rewrite Forall_forall in Hne. by apply Hne. }
  destruct (getitem_slice_no_empty_line X sl HX Hne Hst) as (Y & -> & _).
  apply Instance_well_formed in HX.
  rewrite filter_spec, filter_out_spec, reset_index_spec by done. simpl.
  by rewrite !decide_True by done.
Qed.

(** C2: the transformations on an instance that holds an empty line.
    [reset_index], the full slice and [filter] with the blank-line
    pattern all reach the constructor's length check and raise
    [ValueError]. *)
Theorem transformations_raise_on_empty_line :
  Instance gap ∧
  reset_index gap = Raise ValueError ∧
  getitem_slice gap (mkSlice None None None) = Raise ValueError ∧
  filter gap blank = Raise ValueError.
Proof. split; [exact gap_Instance|]. repeat split; reflexivity. Qed.

(** ** Filtering *)

Lemma kept_negb (regex : str → bool) (pairs : list (Z * str)) :
  kept (λ line, negb (regex line)) pairs
  = base.filter (λ p, regex p.2 ≠ true) pairs.
Proof.
  unfold kept. apply list_filter_iff. intros [i line]; simpl.
  destruct (regex line); simpl; split; try done.
Qed.

Lemma kept_complement (regex : str → bool) (pairs : list (Z * str)) :
  kept regex pairs ++ kept (λ line, negb (regex line)) pairs ≡ₚ pairs.
Proof.
  rewrite kept_negb. unfold kept.
  apply (filter_app_complement (λ p : Z * str, regex p.2 = true)).
Qed.

Lemma kept_sublist (keep : str → bool) (pairs : list (Z * str)) :
  kept keep pairs `sublist_of` pairs.
Proof. apply sublist_filter. Qed.

Lemma entries_mkNL (ps : list (Z * str)) : entries (mkNL ps.*2 ps.*1) = ps.
Proof. apply zip_fst_snd. Qed.

(** On an instance without an empty line, [filter] and [filter_out]
    return the entries whose line matches and the entries whose line does
    not, each in the original order; together they are the entries of the
    instance. *)
Lemma filter_filter_out_no_empty_line (X : NumberedLines) (regex : str → bool) :
  Instance X → no_empty_line (lines X) →
  ∃ Y Z,
    filter X regex = Ok Y ∧ filter_out X regex = Ok Z ∧
    entries Y = base.filter (λ p, regex p.2 = true) (entries X) ∧
    entries Z = base.filter (λ p, regex p.2 ≠ true) (entries X) ∧
    entries Y ++ entries Z ≡ₚ entries X.
Proof.
  intros HX Hne.
  destruct (transformations_total_no_empty_line X regex (mkSlice None None None)
              HX Hne ltac:(done)) as (_ & HY & HZ & _).
  apply Instance_well_formed in HX.
  rewrite filter_spec in HY |- * by done.
  rewrite filter_out_spec in HZ |- * by done. simpl in HZ |- *.
  case_decide; [|done]. case_decide; [|done].
  eexists _, _. split; [done|]. split; [done|].
  rewrite !entries_mkNL. split; [done|]. split.
  - apply kept_negb.
  - apply kept_complement.
Qed.

(** On an instance that holds an empty line, whatever the pattern, the
    empty line is kept by one of [filter] and [filter_out], and that one
    raises [ValueError]; with the blank-line pattern it is [filter]. *)
Lemma filter_or_filter_out_raises_on_empty_line :
  Instance gap ∧
  filter gap blank = Raise ValueError ∧
  ∀ regex : str → bool,
    filter gap regex = Raise ValueError ∨ filter_out gap regex = Raise ValueError.
Proof.
  split; [exact gap_Instance|]. split; [reflexivity|].
  intros regex.
  unfold filter, filter_out, keep_loop, gap. cbn [index lines zip_with foldl].
  change (py "a") with [97%N]. change (py "b") with [98%N].
  destruct (regex []) eqn:Hblank; [left|right];
    destruct (regex [97%N]) eqn:Ha, (regex [98%N]) eqn:Hb;
    cbn -[derive]; rewrite ?Hblank; cbn -[derive]; rewrite ?Hb; reflexivity.
Qed.

(** C3 as stated fails: numbers need not be distinct.  With the number
    5 given to both lines, [filter] and [filter_out] both return and the
    number 5 is in the result of each, so the two sets of numbers are not
    disjoint. *)
Lemma filter_index_sets_overlap :
  init (LinesIter [PyStr (py "a"); PyStr (py "b")]) (Some [5; 5]) = Ok twice ∧
  filter twice has_a = Ok (mkNL [py "a"] [5]) ∧
  filter_out twice has_a = Ok (mkNL [py "b"] [5]) ∧
  ¬ (∀ i, i ∈ index (mkNL [py "a"] [5]) → i ∉ index (mkNL [py "b"] [5])).
Proof.
  repeat split; try reflexivity.
  intros H. apply (H 5); simpl; apply list_elem_of_singleton; done.
Qed.

(** C3, amended: when [filter] and [filter_out] both return, the entries
    of the first are exactly the entries of the instance whose line
    matches, those of the second exactly the ones whose line does not,
    each in the original order and with the original numbers; together
    they are the entries of the instance; every number of the instance is
    a number of one of the two results and conversely; and when the
    numbers of the instance are distinct, no number is in both. *)
Theorem filter_filter_out_partition (X Y Z : NumberedLines) (regex : str → bool) :
  Instance X → filter X regex = Ok Y → filter_out X regex = Ok Z →
  entries Y = base.filter (λ p, regex p.2 = true) (entries X) ∧
  entries Z = base.filter (λ p, regex p.2 ≠ true) (entries X) ∧
  entries Y ++ entries Z ≡ₚ entries X ∧
  (∀ i, i ∈ index X ↔ i ∈ index Y ∨ i ∈ index Z) ∧
  (NoDup (index X) → ∀ i, i ∈ index Y → i ∉ index Z).
Proof.
  intros HX%Instance_well_formed.
  rewrite filter_spec, filter_out_spec by done. simpl.
  case_decide; [|done]. case_decide; [|done].
  intros [= <-] [= <-]. rewrite !entries_mkNL. simpl.
  assert ((kept regex (entries X)).*1
            ++ (kept (λ line, negb (regex line)) (entries X)).*1 ≡ₚ index X)
    as Hperm.
  { rewrite <- fmap_app, kept_complement. unfold entries.
    rewrite fst_zip; [done|]. destruct HX as [-> _]. done. }
  split; [done|]. split; [apply kept_negb|]. split; [apply kept_complement|].
  split.
  - intros i. by rewrite <- Hperm, elem_of_app.
  - intros Hnd. rewrite <- Hperm in Hnd.
    apply NoDup_app in Hnd as (_ & Hdisj & _). exact Hdisj.
Qed.

Lemma filter_filter_out_partition_witness :
  Instance (mkNL [py "x"; py "   "; py "y"] [0; 1; 2]) ∧
  entries (mkNL [py "   "] [1]) ++ entries (mkNL [py "x"; py "y"] [0; 2])
    ≡ₚ entries (mkNL [py "x"; py "   "; py "y"] [0; 1; 2]) ∧
  (2 ∈ index (mkNL [py "x"; py "   "; py "y"] [0; 1; 2]) ↔
   2 ∈ index (mkNL [py "   "] [1]) ∨ 2 ∈ index (mkNL [py "x"; py "y"] [0; 2])).
Proof.
  assert (Instance (mkNL [py "x"; py "   "; py "y"] [0; 1; 2])) as HX.
  { apply (Instance_init
             (LinesIter [PyStr (py "x"); PyStr (py "   "); PyStr (py "y")]) None).
    reflexivity. }
  split; [exact HX|].
  destruct (filter_filter_out_partition
              (mkNL [py "x"; py "   "; py "y"] [0; 1; 2])
              (mkNL [py "   "] [1]) (mkNL [py "x"; py "y"] [0; 2]) blank HX
              eq_refl eq_refl) as (_ & _ & Hperm & Hunion & _).
  split; [exact Hperm|exact (Hunion 2)].
Defined.

(** ** Resetting the index *)

(** Where [reset_index] returns, the lines are unchanged, the numbers are
    [0 .. n-1], and resetting again returns the same instance. *)
Lemma reset_index_Ok (X Y : NumberedLines) :
  Instance X → reset_index X = Ok Y →
  lines Y = lines X ∧ index Y = range (len X) ∧ reset_index Y = Ok Y.
Proof.
  intros HX%Instance_well_formed. rewrite reset_index_spec by done.
  case_decide as Hne; [|done]. intros [= <-]. simpl.
  split; [done|]. split; [done|].
  unfold reset_index. simpl.
  apply derive_no_empty_line; [by destruct HX| |done].
  unfold range. by rewrite length_fmap, length_seq.
Qed.

(** C4: [reset_index] on an instance that holds an empty line raises
    [ValueError]; no instance with the same lines and the numbers 0, 1, 2
    is returned. *)
Theorem reset_index_raises_on_empty_line :
  init (LinesStr blank_text) None = Ok gap ∧
  len gap = 3%nat ∧
  reset_index gap = Raise ValueError.
Proof. repeat split; reflexivity. Qed.

(** ** Integer positions *)

Lemma sublist_same_length {A} (l1 l2 : list A) :
  l1 `sublist_of` l2 → length l1 = length l2 → l1 = l2.
Proof.
  induction 1 as [|x l1 l2 _ IH|x l1 l2 Hsub _]; simpl; intros Hlen.
  - done.
  - f_equal. apply IH. lia.
  - apply sublist_length in Hsub. lia.
Qed.

(** C5 as stated fails: position -1 is outside [0, length) and
    [X[-1]] returns the last line instead of raising. *)
Lemma getitem_int_minus_one :
  Instance abcd ∧ ¬ (0 ≤ -1 < Z.of_nat (len abcd)) ∧
  getitem_int abcd (-1) = Ok (py "d").
Proof. split; [exact abcd_Instance|]. split; [lia|reflexivity]. Qed.

(** C5, amended: [X[i]] is the line at position [i] for [0 <= i < n], the
    line at position [n + i] for [-n <= i < 0], and raises [IndexError]
    for every other integer. *)
Theorem getitem_int_spec (X : NumberedLines) (i : Z) :
  (0 ≤ i < Z.of_nat (len X) →
     ∃ s, lines X !! Z.to_nat i = Some s ∧ getitem_int X i = Ok s) ∧
  (- Z.of_nat (len X) ≤ i < 0 →
     ∃ s, lines X !! Z.to_nat (Z.of_nat (len X) + i) = Some s ∧
          getitem_int X i = Ok s) ∧
  (i < - Z.of_nat (len X) ∨ Z.of_nat (len X) ≤ i →
     getitem_int X i = Raise IndexError).
Proof.
  unfold getitem_int, list_getitem, len.
  set (n := Z.of_nat (length (lines X))).
  split; [|split]; intros Hi.
  - destruct (Z.ltb_spec i 0); [lia|].
    destruct (Z.ltb_spec i 0); [lia|]. destruct (Z.leb_spec n i); [lia|]. simpl.
    destruct (lookup_lt_is_Some_2 (lines X) (Z.to_nat i)) as [s Hs]; [lia|].
    exists s. by rewrite Hs.
  - destruct (Z.ltb_spec i 0); [|lia].
    destruct (Z.ltb_spec (i + n) 0); [lia|].
    destruct (Z.leb_spec n (i + n)); [lia|]. simpl.
    destruct (lookup_lt_is_Some_2 (lines X) (Z.to_nat (i + n))) as [s Hs]; [lia|].
    exists s. rewrite (Z.add_comm n i). by rewrite Hs.
  - destruct (Z.ltb_spec i 0).
    + destruct (Z.ltb_spec (i + n) 0); [done|lia].
    + destruct (Z.ltb_spec i 0); [lia|].
      destruct (Z.leb_spec n i); [done|lia].
Qed.

Lemma getitem_int_spec_witness :
  getitem_int abcd 1 = Ok (py "b") ∧
  getitem_int abcd (-1) = Ok (py "d") ∧
  getitem_int abcd 4 = Raise IndexError ∧
  getitem_int abcd (-5) = Raise IndexError.
Proof.
  split; [|split; [|split]].
  - destruct (getitem_int_spec abcd 1) as (H & _ & _).
    destruct H as (s & Hs & ->); [change (len abcd) with 4%nat; lia|].
    vm_compute in Hs. injection Hs as <-. reflexivity.
  - destruct (getitem_int_spec abcd (-1)) as (_ & H & _).
    destruct H as (s & Hs & ->); [change (len abcd) with 4%nat; lia|].
    vm_compute in Hs. injection Hs as <-. reflexivity.
  - destruct (getitem_int_spec abcd 4) as (_ & _ & H).
    apply H. change (len abcd) with 4%nat. lia.
  - destruct (getitem_int_spec abcd (-5)) as (_ & _ & H).
    apply H. change (len abcd) with 4%nat. lia.
Defined.

(** [__getitem__] dispatches on the key: an integer reads a line, a slice
    builds an instance. *)
Lemma getitem_KeyInt (X : NumberedLines) (i : Z) :
  getitem X (KeyInt i) = (s ← getitem_int X i; Ok (ItemStr s)).
Proof. done. Qed.

Lemma getitem_KeySlice (X : NumberedLines) (sl : slice) :
  getitem X (KeySlice sl) = (Y ← getitem_slice X sl; Ok (ItemLines Y)).
Proof. done. Qed.

(** ** The length invariant *)

(** C6: every instance, whether the constructor built it or a slice, a
    filter or a reset returned it, has as many lines as numbers. *)
Theorem length_invariant (X : NumberedLines) :
  Instance X → length (lines X) = length (index X).
Proof. intros HX. by destruct (Instance_well_formed X HX). Qed.

Lemma length_invariant_witness :
  Instance (mkNL [py "b"; py "d"] [1; 3]) ∧
  length (lines (mkNL [py "b"; py "d"] [1; 3]))
  = length (index (mkNL [py "b"; py "d"] [1; 3])).
Proof.
  assert (Instance (mkNL [py "b"; py "d"] [1; 3])) as HX.
  { apply (Instance_slice abcd (mkSlice (Some (-3)) (Some 100) (Some 2))).
    - apply (Instance_init
               (LinesIter [PyStr (py "a"); PyStr (py "b"); PyStr (py "c");
                           PyStr (py "d")]) None).
      reflexivity.
    - reflexivity. }
  split; [exact HX|]. exact (length_invariant _ HX).
Defined.

(** ** Order *)

Lemma entries_pick (X : NumberedLines) (ps : list nat) :
  well_formed X →
  entries (mkNL (pick (lines X) ps) (pick (index X) ps)) = pick (entries X) ps.
Proof.
  intros [Hlen _]. unfold entries. simpl. by rewrite pick_zip.
Qed.

(** C7 as stated fails: the slice [::-1] returns the entries in reverse
    order, which is not a subsequence of the original entries. *)
Lemma slice_negative_step_reorders :
  Instance abcd ∧
  getitem_slice abcd (mkSlice None None (Some (-1))) = Ok dcba ∧
  ¬ entries dcba `sublist_of` entries abcd.
Proof.
  split; [exact abcd_Instance|]. split; [reflexivity|].
  intros Hsub. apply sublist_same_length in Hsub; [|reflexivity].
  discriminate Hsub.
Qed.

(** C7, amended: the entries of a slice with a positive (or omitted)
    step, of [filter] and of [filter_out] are a subsequence of the entries
    of the instance; the entries of a slice with a negative step are a
    subsequence of the reversed entries; [reset_index] keeps the lines as
    they are and numbers them from zero. *)
Theorem transformations_preserve_order (X Y : NumberedLines) :
  Instance X →
  (∀ sl, getitem_slice X sl = Ok Y →
     (0 < default 1 (step sl) → entries Y `sublist_of` entries X) ∧
     (default 1 (step sl) < 0 → entries Y `sublist_of` reverse (entries X))) ∧
  (∀ regex, filter X regex = Ok Y → entries Y `sublist_of` entries X) ∧
  (∀ regex, filter_out X regex = Ok Y → entries Y `sublist_of` entries X) ∧
  (reset_index X = Ok Y → lines Y = lines X ∧ index Y = range (len X)).
Proof.
  intros HX%Instance_well_formed. repeat split.
  - intros Hpos.
    destruct (slice_positions_total sl (length (lines X))) as [ps Hps].
    { intros Hz. rewrite Hz in Hpos. simpl in Hpos. lia. }
    rewrite (getitem_slice_spec X sl ps HX Hps) in H.
    case_decide; [|done]. injection H as <-.
    rewrite entries_pick by done.
    apply slice_positions_Ok in Hps as (_ & Hup & _).
    by apply pick_sublist, Hup.
  - intros Hneg.
    destruct (slice_positions_total sl (length (lines X))) as [ps Hps].
    { intros Hz. rewrite Hz in Hneg. simpl in Hneg. lia. }
    rewrite (getitem_slice_spec X sl ps HX Hps) in H.
    case_decide; [|done]. injection H as <-.
    rewrite entries_pick by done.
    apply slice_positions_Ok in Hps as (_ & _ & Hdown).
    by apply pick_sublist_reverse, Hdown.
  - intros regex. rewrite filter_spec by done.
    case_decide; [|done]. intros [= <-].
    rewrite entries_mkNL. apply kept_sublist.
  - intros regex. rewrite filter_out_spec by done. simpl.
    case_decide; [|done]. intros [= <-].
    rewrite entries_mkNL. apply kept_sublist.
  - revert H. rewrite reset_index_spec by done.
    case_decide; [|done]. by intros [= <-].
  - revert H. rewrite reset_index_spec by done.
    case_decide; [|done]. by intros [= <-].
Qed.

Lemma transformations_preserve_order_witness :
  Instance abcd ∧
  entries (mkNL [py "b"; py "d"] [1; 3]) `sublist_of` entries abcd ∧
  entries dcba `sublist_of` reverse (entries abcd).
Proof.
  assert (Instance abcd) as HX.
  { apply (Instance_init
             (LinesIter [PyStr (py "a"); PyStr (py "b"); PyStr (py "c");
                         PyStr (py "d")]) None).
    reflexivity. }
  split; [exact HX|]. split.
  - destruct (transformations_preserve_order abcd (mkNL [py "b"; py "d"] [1; 3]) HX)
      as (Hslice & _).
    destruct (Hslice (mkSlice (Some (-3)) (Some 100) (Some 2))) as [Hup _];
      [reflexivity|].
    apply Hup. simpl. lia.
  - destruct (transformations_preserve_order abcd dcba HX) as (Hslice & _).
    destruct (Hslice (mkSlice None None (Some (-1)))) as [_ Hdown];
      [reflexivity|].
    apply Hdown. simpl. lia.
Defined.

(** ** Construction with an explicit index *)

Lemma flatten_items_strings_of (items : list pyobj) :
  flatten_items items = mjoin (splitlines <$> strings_of items).
Proof.
  unfold flatten_items, strings_of.
  induction items as [|[s|] items IH]; [done| |done].
  rewrite bind_cons, IH. done.
Qed.

(** C8: with an explicit index, the constructor raises the length
    mismatch when the index and the produced lines differ in length, and
    otherwise returns exactly the produced lines and the given index. *)
Theorem init_explicit_index (arg : lines_arg) (ix : list Z) (ls : list str) :
  produced_lines arg = Some ls →
  (length ix ≠ length ls → init arg (Some ix) = Raise ValueError) ∧
  (length ix = length ls → init arg (Some ix) = Ok (mkNL ls ix)).
Proof.
  intros Hls. unfold init.
  destruct arg as [s|items|]; simpl in Hls; [| |done].
  - injection Hls as <-. simpl.
    split; intros Hlen.
    + by rewrite bool_decide_true.
    + by rewrite bool_decide_false by (intros ?; done).
  - injection Hls as <-. simpl. rewrite flatten_items_strings_of.
    split; intros Hlen.
    + by rewrite bool_decide_true.
    + by rewrite bool_decide_false by (intros ?; done).
Qed.

Lemma init_explicit_index_witness :
  init (LinesIter [PyStr (py "a"); PyStr (py "b")]) (Some [5]) = Raise ValueError ∧
  init (LinesIter [PyStr (py "a"); PyStr (py "b")]) (Some [5; 7])
    = Ok (mkNL [py "a"; py "b"] [5; 7]).
Proof.
  split.
  - destruct (init_explicit_index (LinesIter [PyStr (py "a"); PyStr (py "b")])
                [5] [py "a"; py "b"]) as [Hne _]; [reflexivity|].
    apply Hne. simpl. lia.
  - destruct (init_explicit_index (LinesIter [PyStr (py "a"); PyStr (py "b")])
                [5; 7] [py "a"; py "b"]) as [_ Heq]; [reflexivity|].
    apply Heq. reflexivity.
Defined.

(** An argument that is neither a string nor an iterable raises the type
    error before the index is looked at. *)
Lemma init_type_error (idx : option (list Z)) : init LinesOther idx = Raise TypeError.
Proof. done. Qed.

(** ** The default format *)




(** A negative [pad] makes the format specification invalid: [format]
    raises as soon as there is a line to render. *)
Lemma format_negative_pad :
  format abcd (Some (-1)) = Raise ValueError ∧
  format (mkNL [] []) (Some (-1)) = Ok [].
Proof. split; reflexivity. Qed.

(** ** Terminator-free lines *)

(** The boundaries the specification lists are boundaries of
    [splitlines]. *)
Lemma listed_boundaries :
  Forall (λ c, is_linebreak c = true) [10; 13; 11; 12; 8232; 8233]%N.
Proof. repeat constructor. Qed.

(** C10: no line of an instance holds a line boundary. *)
Theorem lines_terminator_free (X : NumberedLines) :
  Instance X → Forall terminator_free (lines X).
Proof. intros HX. by destruct (Instance_well_formed X HX). Qed.

Lemma lines_terminator_free_witness :
  Instance gap ∧ Forall terminator_free (lines gap).
Proof.
  assert (Instance gap) as HX.
  { apply (Instance_init (LinesStr blank_text) None). reflexivity. }
  split; [exact HX|]. exact (lines_terminator_free gap HX).
Defined.

(** * Further properties of the code *)

(** ** The constructor *)

(** X1: without an explicit index, construction from a string or from a
    collection returns, and the number at position [k] is [k]; the
    constructor raises exactly for an argument that is neither, and what
    it raises is then [TypeError]. *)
Theorem init_default_index (arg : lines_arg) :
  (∀ X, init arg None = Ok X →
     ∀ k : nat, index X !! k = if decide (k < len X)%nat
                               then Some (Z.of_nat k) else None) ∧
  (∀ e, init arg None = Raise e ↔ arg = LinesOther ∧ e = TypeError) ∧
  (arg ≠ LinesOther → is_ok (init arg None) = true).
Proof.
  assert (∀ ls : list str, ∀ k : nat,
            range (length ls) !! k
            = if decide (k < length ls)%nat then Some (Z.of_nat k) else None)
    as Hrange.
  { intros ls k. unfold range. rewrite list_lookup_fmap.
    case_decide as Hk.
    - by rewrite lookup_seq_lt.
    - by rewrite lookup_seq_ge by lia. }
  destruct arg as [s|items|]; unfold init, len; simpl.
  - split; [|split]; [|by split; [|intros []]|done].
    intros X [= <-]. apply Hrange.
  - split; [|split]; [|by split; [|intros []]|done].
    intros X [= <-]. apply Hrange.
  - split; [done|]. split; [|done].
    intros e. split; [by intros [= <-]|by intros [_ ->]].
Qed.

Lemma init_default_index_witness :
  index (mkNL [py "a"; py "b"] [0; 1]) !! 1%nat = Some 1 ∧
  index (mkNL [py "a"; py "b"] [0; 1]) !! 2%nat = None ∧
  is_ok (init (LinesStr (py "a" ++ [LF] ++ py "b")) None) = true.
Proof.
  destruct (init_default_index (LinesStr (py "a" ++ [LF] ++ py "b")))
    as (Hidx & _ & Hok).
  split; [|split].
  - exact (Hidx (mkNL [py "a"; py "b"] [0; 1]) eq_refl 1%nat).
  - exact (Hidx (mkNL [py "a"; py "b"] [0; 1]) eq_refl 2%nat).
  - apply Hok. discriminate.
Defined.

Lemma flatten_items_app (a b : list pyobj) :
  flatten_items (a ++ b) = flatten_items a ++ flatten_items b.
Proof. unfold flatten_items. apply bind_app. Qed.

(** X2: elements that are not strings do not count: a collection and the
    collection of its strings construct the same, with or without an
    explicit index. *)
Theorem init_skips_non_strings (items : list pyobj) (idx : option (list Z)) :
  init (LinesIter items) idx = init (LinesIter (PyStr <$> strings_of items)) idx.
Proof.
  unfold init. simpl.
  replace (flatten_items (PyStr <$> strings_of items)) with (flatten_items items);
    [done|].
  unfold strings_of, flatten_items.
  induction items as [|[s|] items IH]; [done| |].
  - rewrite bind_cons. cbn [omap list_omap].
    rewrite fmap_cons, bind_cons. by rewrite <- IH.
  - rewrite bind_cons. exact IH.
Qed.

(** X3: construction flattens in order: the lines of two collections put
    one after the other are the lines of the first followed by the lines
    of the second, numbered through; and a string constructs what the
    one-element collection holding it constructs. *)
Theorem init_concatenates (a b : list pyobj) (X Y : NumberedLines) (s : str)
    (idx : option (list Z)) :
  (init (LinesIter a) None = Ok X → init (LinesIter b) None = Ok Y →
   init (LinesIter (a ++ b)) None
   = Ok (mkNL (lines X ++ lines Y) (range (len X + len Y)))) ∧
  init (LinesStr s) idx = init (LinesIter [PyStr s]) idx.
Proof.
  split.
  - unfold init, len; simpl. intros [= <-] [= <-]; simpl.
    by rewrite flatten_items_app, length_app.
  - assert (flatten_items [PyStr s] = splitlines s) as Hone.
    { unfold flatten_items. rewrite bind_cons. apply app_nil_r. }
    unfold init. cbn [mbind result_bind]. by rewrite Hone.
Qed.

Lemma init_concatenates_witness :
  init (LinesIter ([PyStr (py "a" ++ [LF] ++ py "b")] ++ [PyOther; PyStr (py "c")])) None
  = Ok (mkNL ([py "a"; py "b"] ++ [py "c"]) (range (2 + 1))).
Proof.
  destruct (init_concatenates [PyStr (py "a" ++ [LF] ++ py "b")]
              [PyOther; PyStr (py "c")]
              (mkNL [py "a"; py "b"] [0; 1]) (mkNL [py "c"] [0]) [] None)
    as [H _].
  exact (H eq_refl eq_refl).
Defined.

(** X4: a list of lines handed to the constructor loses its empty
    strings: what is stored are the non-empty lines, numbered anew. *)
Theorem init_drops_empty_strings (ls : list str) :
  Forall terminator_free ls →
  init (LinesIter (PyStr <$> ls)) None
  = Ok (mkNL (base.filter (λ l : str, l ≠ []) ls)
             (range (length (base.filter (λ l : str, l ≠ []) ls)))).
Proof.
  intros Hls. unfold init; simpl. by rewrite flatten_lines.
Qed.

Lemma init_drops_empty_strings_witness :
  init (LinesIter [PyStr (py "x"); PyStr []; PyStr (py "y")]) None
  = Ok (mkNL [py "x"; py "y"] [0; 1]).
Proof.
  apply (init_drops_empty_strings [py "x"; []; py "y"]).
  repeat constructor.
Defined.

(** X5: the text of lines, each closed by a line feed, constructs exactly
    those lines, empty ones included, numbered from zero. *)
Theorem init_text_round_trip (ls : list str) :
  Forall terminator_free ls →
  init (LinesStr (ls ≫= λ l, l ++ [LF])) None = Ok (mkNL ls (range (length ls))).
Proof.
  intros Hls. unfold init; simpl. by rewrite splitlines_join.
Qed.

Lemma init_text_round_trip_witness :
  init (LinesStr (py "a" ++ [LF] ++ [] ++ [LF] ++ py "b" ++ [LF])) None
  = Ok (mkNL [py "a"; []; py "b"] [0; 1; 2]).
Proof.
  apply (init_text_round_trip [py "a"; []; py "b"]).
  repeat constructor.
Defined.

(** X6: the values the program can hold are exactly the pairs of equally
    long lists whose lines hold no line boundary. *)
Theorem Instance_iff_well_formed (X : NumberedLines) :
  Instance X ↔ well_formed X.
Proof. split; [apply Instance_well_formed|apply well_formed_Instance]. Qed.

(** ** List slices *)

Lemma slice_positions_step1 (sl : slice) (n : nat) (a b : Z) :
  step sl = None →
  slice_indices sl (Z.of_nat n) = Ok (a, b, 1) →
  slice_positions sl n = Ok (seq (Z.to_nat a) (Z.to_nat (b - a))).
Proof.
  intros Hst Hix.
  pose proof (slice_indices_Ok sl (Z.of_nat n) a b 1 ltac:(lia) Hix)
    as (_ & _ & Hup & _).
  destruct (Hup ltac:(lia)) as [Ha Hb].
  unfold slice_positions. rewrite Hix. simpl. f_equal.
  assert (Z.to_nat (slice_length a b 1) = Z.to_nat (b - a)) as ->.
  { unfold slice_length. simpl. destruct (Z.ltb_spec a b).
    - rewrite Z.div_1_r. lia.
    - lia. }
  replace (seq (Z.to_nat a) (Z.to_nat (b - a)))
    with (seq (Z.to_nat a + 0) (Z.to_nat (b - a))) by (f_equal; lia).
  rewrite <- (fmap_add_seq (Z.to_nat a) 0).
  apply list_fmap_ext. intros _ k _. lia.
Qed.

Lemma list_getslice_step1 {A} (l : list A) (sl : slice) (a b : Z) :
  step sl = None →
  slice_indices sl (Z.of_nat (length l)) = Ok (a, b, 1) →
  list_getslice l sl = Ok (take (Z.to_nat (b - a)) (drop (Z.to_nat a) l)).
Proof.
  intros Hst Hix.
  pose proof (slice_indices_Ok sl (Z.of_nat (length l)) a b 1 ltac:(lia) Hix)
    as (_ & _ & Hup & _).
  destruct (Hup ltac:(lia)) as [Ha Hb].
  unfold list_getslice.
  rewrite (slice_positions_step1 sl (length l) a b Hst Hix). simpl.
  f_equal. apply pick_seq. lia.
Qed.

(** X7: a slice [l[a:b]] with non-negative bounds is the list cut at [b]
    and then at [a], whatever the bounds: beyond the end they clamp, and
    crossed bounds give the empty list. *)
Theorem list_getslice_nat_bounds {A} (l : list A) (a b : nat) :
  list_getslice l (mkSlice (Some (Z.of_nat a)) (Some (Z.of_nat b)) None)
  = Ok (drop a (take b l)).
Proof.
  rewrite (list_getslice_step1 l _ (Z.min (Z.of_nat a) (Z.of_nat (length l)))
             (Z.min (Z.of_nat b) (Z.of_nat (length l)))); [|done|].
  - f_equal.
    destruct (decide (length l ≤ a)%nat) as [Hge|Hlt].
    { rewrite (drop_ge (take b l)) by (rewrite length_take; lia).
      rewrite (drop_ge l) by lia. by rewrite take_nil. }
    replace (Z.to_nat (Z.min (Z.of_nat a) (Z.of_nat (length l)))) with a by lia.
    destruct (decide (b ≤ a)%nat) as [Hba|Hab].
    { rewrite (drop_ge (take b l)) by (rewrite length_take; lia).
      replace (Z.to_nat (Z.min (Z.of_nat b) (Z.of_nat (length l))
                         - Z.min (Z.of_nat a) (Z.of_nat (length l)))) with 0%nat by lia.
      done. }
    rewrite take_drop_commute. f_equal.
    destruct (decide (length l ≤ b)%nat).
    + rewrite !take_ge; [done|lia|lia].
    + f_equal. lia.
  - unfold slice_indices. simpl.
    destruct (Z.ltb_spec (Z.of_nat a) 0); [lia|].
    destruct (Z.ltb_spec (Z.of_nat b) 0); [lia|]. done.
Qed.

Lemma slice_positions_backwards (n : nat) :
  slice_positions backwards n = Ok (reverse (seq 0 n)).
Proof.
  unfold slice_positions, backwards, slice_indices. simpl. f_equal.
  assert (Z.to_nat (slice_length (Z.of_nat n - 1) (-1) (-1)) = n) as ->.
  { unfold slice_length. simpl.
    destruct (Z.ltb_spec (-1) (Z.of_nat n - 1)).
    - change (- -1) with 1. rewrite Z.div_1_r. lia.
    - lia. }
  apply list_eq. intros i.
  rewrite list_lookup_fmap.
  destruct (decide (i < n)%nat) as [Hi|Hi].
  - rewrite lookup_seq_lt by done. simpl.
    rewrite reverse_lookup by (rewrite length_seq; lia).
    rewrite length_seq, lookup_seq_lt by lia. f_equal. lia.
  - rewrite lookup_seq_ge by lia. simpl. symmetry.
    apply lookup_ge_None. rewrite length_reverse, length_seq. lia.
Qed.

Lemma pick_seq_all {A} (l : list A) : pick l (seq 0 (length l)) = l.
Proof.
  rewrite pick_seq by lia. rewrite drop_0. apply take_ge. lia.
Qed.

Lemma list_getslice_everything {A} (l : list A) : list_getslice l everything = Ok l.
Proof.
  rewrite (list_getslice_step1 l everything 0 (Z.of_nat (length l)));
    [|done|done].
  f_equal. rewrite drop_0. apply take_ge. lia.
Qed.

Lemma list_getslice_backwards {A} (l : list A) :
  list_getslice l backwards = Ok (reverse l).
Proof.
  unfold list_getslice. rewrite slice_positions_backwards. simpl.
  by rewrite pick_reverse, pick_seq_all.
Qed.

Lemma list_getslice_Raise {A} (l : list A) (sl : slice) (e : exn) :
  list_getslice l sl = Raise e → e = ValueError.
Proof.
  unfold list_getslice.
  destruct (slice_positions sl (length l)) as [ps|e'] eqn:Hps; simpl; [done|].
  intros [= <-]. by apply slice_positions_Raise in Hps as [_ ->].
Qed.

(** X8: the slice [l[:]] is the list, the slice [l[::-1]] is the list
    reversed, and reversing twice gives the list back. *)
Theorem list_getslice_everything_backwards {A} (l : list A) :
  list_getslice l everything = Ok l ∧
  list_getslice l backwards = Ok (reverse l) ∧
  (r ← list_getslice l backwards; list_getslice r backwards) = Ok l.
Proof.
  split; [apply list_getslice_everything|]. split; [apply list_getslice_backwards|].
  rewrite list_getslice_backwards. simpl.
  by rewrite list_getslice_backwards, reverse_involutive.
Qed.

Lemma list_getslice_ends {A} (l : list A) (k : nat) :
  list_getslice l (up_to k) = Ok (take k l) ∧
  ((0 < k)%nat → list_getslice l (last_of k) = Ok (drop (length l - k) l)) ∧
  list_getslice l (last_of 0) = Ok l.
Proof.
  split; [|split].
  - rewrite (list_getslice_step1 l (up_to k) 0
               (Z.min (Z.of_nat k) (Z.of_nat (length l)))); [|done|].
    + f_equal. rewrite drop_0.
      destruct (decide (length l ≤ k)%nat).
      * rewrite !take_ge; [done|lia|lia].
      * f_equal. lia.
    + unfold slice_indices, up_to. simpl.
      by destruct (Z.ltb_spec (Z.of_nat k) 0); [lia|].
  - intros Hk.
    rewrite (list_getslice_step1 l (last_of k)
               (Z.max (- Z.of_nat k + Z.of_nat (length l)) 0)
               (Z.of_nat (length l))); [|done|].
    + f_equal.
      replace (Z.to_nat (Z.max (- Z.of_nat k + Z.of_nat (length l)) 0))
        with (length l - k)%nat by lia.
      apply take_ge. rewrite length_drop. lia.
    + unfold slice_indices, last_of. simpl.
      by destruct (Z.ltb_spec (- Z.of_nat k) 0); [|lia].
  - rewrite (list_getslice_step1 l (last_of 0) 0 (Z.of_nat (length l)));
      [|done|].
    + f_equal. rewrite drop_0. apply take_ge. lia.
    + unfold slice_indices, last_of. simpl. f_equal. f_equal. f_equal. lia.
Qed.

(** X9: the slice [l[:k]] is the first [k] elements; for [k > 0] the
    slice [l[-k:]] is the last [k] elements, all of them when the list is
    shorter; [l[-0:]] is the whole list. *)
Theorem list_getslice_prefix_suffix {A} (l : list A) (k : nat) :
  list_getslice l (up_to k) = Ok (take k l) ∧
  ((0 < k)%nat → list_getslice l (last_of k) = Ok (drop (length l - k) l)) ∧
  list_getslice l (last_of 0) = Ok l.
Proof. apply list_getslice_ends. Qed.

Lemma list_getslice_prefix_suffix_witness :
  list_getslice [10; 20; 30] (last_of 2) = Ok [20; 30] ∧
  list_getslice [10; 20; 30] (last_of 5) = Ok [10; 20; 30].
Proof.
  split.
  - destruct (list_getslice_prefix_suffix [10; 20; 30] 2) as (_ & H & _).
    apply H. lia.
  - destruct (list_getslice_prefix_suffix [10; 20; 30] 5) as (_ & H & _).
    apply H. lia.
Defined.

(** X10: slicing a list raises for a zero step only; with any other
    step and any bounds it returns elements of the list, no more of them
    than the list has. *)
Theorem list_getslice_clamps {A} (l : list A) (sl : slice) :
  (∀ e, list_getslice l sl = Raise e ↔ step sl = Some 0 ∧ e = ValueError) ∧
  (step sl ≠ Some 0 →
   ∃ out, list_getslice l sl = Ok out ∧
          (length out ≤ length l)%nat ∧ Forall (λ x, x ∈ l) out).
Proof.
  split.
  - intros e. unfold list_getslice.
    rewrite <- (slice_positions_Raise sl (length l) e).
    destruct (slice_positions sl (length l)) as [ps|e']; simpl; split; congruence.
  - intros Hst.
    destruct (slice_positions_total sl (length l) Hst) as [ps Hps].
    exists (pick l ps). unfold list_getslice. rewrite Hps. simpl.
    split; [done|]. split.
    + apply slice_positions_Ok in Hps as (_ & Hup & Hdown).
      destruct (Z.lt_trichotomy 0 (default 1 (step sl))) as [Hpos|[Hz|Hneg]].
      * apply sublist_length, pick_sublist, Hup, Hpos.
      * destruct (step sl) as [st|]; simpl in Hz; [|lia]. congruence.
      * rewrite <- (length_reverse l).
        apply sublist_length, pick_sublist_reverse, Hdown, Hneg.
    + apply Forall_forall. intros x Hx.
      apply list_elem_of_omap in Hx as (p & _ & Hp).
      by eapply list_elem_of_lookup_2.
Qed.

Lemma list_getslice_clamps_witness :
  ∃ out, list_getslice [10; 20; 30] (mkSlice (Some (-100)) (Some 100) (Some 2))
         = Ok out ∧ (length out ≤ 3)%nat.
Proof.
  destruct (list_getslice_clamps [10; 20; 30]
              (mkSlice (Some (-100)) (Some 100) (Some 2))) as [_ H].
  destruct H as (out & Hout & Hlen & _); [discriminate|].
  exists out. split; [exact Hout|exact Hlen].
Defined.

(** ** Slices of instances *)

Lemma no_empty_line_iff (ls : list str) : no_empty_line ls ↔ [] ∉ ls.
Proof.
  unfold no_empty_line. rewrite Forall_forall. split.
  - intros H Hin. by apply (H [] Hin).
  - intros H l Hin ->. by apply H.
Qed.

(** X11: on an instance, a slice is taken of the lines and of the
    numbers alike; the call returns the two slices when no selected line
    is empty and raises [ValueError] when one is. *)
Theorem getitem_slice_exact (X : NumberedLines) (sl : slice)
    (ls : list str) (ix : list Z) :
  Instance X →
  list_getslice (lines X) sl = Ok ls → list_getslice (index X) sl = Ok ix →
  length ls = length ix ∧
  getitem_slice X sl =
    if decide ([] ∈ ls) then Raise ValueError else Ok (mkNL ls ix).
Proof.
  intros [Hlen Htf]%Instance_well_formed Hls Hix.
  unfold getitem_slice. rewrite Hls, Hix. simpl.
  unfold list_getslice in Hls, Hix. rewrite <- Hlen in Hix.
  destruct (slice_positions sl (length (lines X))) as [ps|] eqn:Hps;
    simpl in *; [|done].
  injection Hls as <-. injection Hix as <-.
  apply slice_positions_Ok in Hps as (Hin & _ & _).
  assert (length (pick (lines X) ps) = length (pick (index X) ps)) as Hpick.
  { rewrite !pick_length; [done|by rewrite <- Hlen|done]. }
  split; [done|].
  rewrite derive_same_length; [|by apply pick_Forall|done].
  case_decide as Hne; case_decide as Hin'; try done.
  - by apply no_empty_line_iff in Hne.
  - by apply no_empty_line_iff in Hin'.
Qed.

Lemma getitem_slice_exact_witness :
  getitem_slice abcd (mkSlice (Some 1) (Some 3) None)
  = Ok (mkNL [py "b"; py "c"] [1; 2]) ∧
  getitem_slice gap (mkSlice (Some 1) (Some 3) None) = Raise ValueError.
Proof.
  split.
  - destruct (getitem_slice_exact abcd (mkSlice (Some 1) (Some 3) None)
                [py "b"; py "c"] [1; 2]) as [_ H]; [|reflexivity|reflexivity|].
    + apply (Instance_init
               (LinesIter [PyStr (py "a"); PyStr (py "b"); PyStr (py "c");
                           PyStr (py "d")]) None).
      reflexivity.
    + rewrite H. reflexivity.
  - destruct (getitem_slice_exact gap (mkSlice (Some 1) (Some 3) None)
                [[]; py "b"] [1; 2]) as [_ H]; [|reflexivity|reflexivity|].
    + apply (Instance_init (LinesStr blank_text) None). reflexivity.
    + rewrite H. reflexivity.
Defined.

(** X12: where [X[::-1]] returns, it holds the lines and the numbers of
    [X] in reverse order, and reversing it again returns [X]; where
    [X[:]] returns, it is [X]. *)
Theorem getitem_slice_backwards_involutive (X Y : NumberedLines) :
  Instance X →
  (getitem_slice X backwards = Ok Y →
   lines Y = reverse (lines X) ∧ index Y = reverse (index X) ∧
   getitem_slice Y backwards = Ok X) ∧
  (getitem_slice X everything = Ok Y → Y = X).
Proof.
  intros [Hlen Htf]%Instance_well_formed. destruct X as [ls ix]; simpl in *.
  split.
  - unfold getitem_slice. cbn [lines index].
    rewrite !list_getslice_backwards. cbn [mbind result_bind].
    intros HY. apply derive_Ok in HY as [-> Hne];
      [|by apply Forall_reverse|by rewrite !length_reverse].
    cbn [lines index]. split; [done|]. split; [done|].
    rewrite !reverse_involutive.
    apply derive_no_empty_line; [done|done|].
    unfold no_empty_line in *. by rewrite Forall_reverse in Hne.
  - unfold getitem_slice. cbn [lines index].
    rewrite !list_getslice_everything. cbn [mbind result_bind].
    intros HY. by apply derive_Ok in HY as [-> _].
Qed.

Lemma getitem_slice_backwards_involutive_witness :
  getitem_slice dcba backwards = Ok abcd.
Proof.
  assert (Instance abcd) as HX.
  { apply (Instance_init
             (LinesIter [PyStr (py "a"); PyStr (py "b"); PyStr (py "c");
                         PyStr (py "d")]) None).
    reflexivity. }
  destruct (getitem_slice_backwards_involutive abcd dcba HX) as [H _].
  destruct (H eq_refl) as (_ & _ & Hback). exact Hback.
Defined.

(** ** Errors of the transformations *)

(** X13: whatever a transformation raises is a [ValueError]: neither the
    type error of the constructor nor an index error can come out of
    slicing, filtering or resetting. *)
Theorem transformations_only_raise_ValueError (X : NumberedLines) (e : exn) :
  (∀ sl, getitem_slice X sl = Raise e → e = ValueError) ∧
  (∀ regex, filter X regex = Raise e → e = ValueError) ∧
  (∀ regex, filter_out X regex = Raise e → e = ValueError) ∧
  (reset_index X = Raise e → e = ValueError).
Proof.
  repeat split.
  - intros sl. unfold getitem_slice.
    destruct (list_getslice (lines X) sl) as [ls|e1] eqn:Hls; simpl.
    + destruct (list_getslice (index X) sl) as [ix|e2] eqn:Hix; simpl.
      * apply derive_error.
      * intros [= <-]. by apply list_getslice_Raise in Hix.
    + intros [= <-]. by apply list_getslice_Raise in Hls.
  - intros regex. unfold filter. destruct (keep_loop _ _). apply derive_error.
  - intros regex. unfold filter_out. destruct (keep_loop _ _). apply derive_error.
  - apply derive_error.
Qed.

Lemma transformations_only_raise_ValueError_witness :
  reset_index gap = Raise ValueError ∧ ValueError = ValueError.
Proof.
  split; [reflexivity|].
  destruct (transformations_only_raise_ValueError gap ValueError)
    as (_ & _ & _ & H).
  exact (H eq_refl).
Defined.

Lemma empty_line_kept (keep : str → bool) (X : NumberedLines) :
  well_formed X →
  [] ∈ (kept keep (entries X)).*2 ↔ [] ∈ lines X ∧ keep [] = true.
Proof.
  intros [Hlen _]. rewrite list_elem_of_fmap. split.
  - intros ([i line] & Hline & Hin). simpl in Hline. subst line.
    apply list_elem_of_filter in Hin as [Hkeep Hin]. simpl in Hkeep.
    split; [|done]. by apply elem_of_zip_r in Hin.
  - intros [Hin Hkeep].
    apply list_elem_of_lookup in Hin as [k Hk].
    destruct (lookup_lt_is_Some_2 (index X) k) as [i Hi].
    { rewrite <- Hlen. by eapply lookup_lt_Some. }
    exists (i, []). split; [done|].
    apply list_elem_of_filter. split; [done|].
    apply list_elem_of_lookup. exists k.
    apply lookup_zip_with_Some. by exists i, [].
Qed.

(** X14: on an instance, [reset_index] raises exactly when a line is
    empty; [filter] raises exactly when a line is empty and the pattern
    matches the empty string; [filter_out] raises exactly when a line is
    empty and the pattern does not match the empty string. *)
Theorem raise_iff_empty_line (X : NumberedLines) (regex : str → bool) :
  Instance X →
  (reset_index X = Raise ValueError ↔ [] ∈ lines X) ∧
  (filter X regex = Raise ValueError ↔ [] ∈ lines X ∧ regex [] = true) ∧
  (filter_out X regex = Raise ValueError ↔ [] ∈ lines X ∧ regex [] = false).
Proof.
  intros HX%Instance_well_formed.
  rewrite reset_index_spec, filter_spec, filter_out_spec by done. simpl.
  split; [|split].
  - case_decide as Hne; rewrite no_empty_line_iff in Hne.
    + split; [done|]. intros Hin. by destruct Hne.
    + split; [|done]. intros _. by apply dec_stable.
  - rewrite <- (empty_line_kept regex X HX).
    case_decide as Hne; rewrite no_empty_line_iff in Hne.
    + split; [done|]. intros Hin. by destruct Hne.
    + split; [|done]. intros _. by apply dec_stable.
  - assert (regex [] = false ↔ negb (regex []) = true) as ->
      by (by destruct (regex [])).
    rewrite <- (empty_line_kept (λ line, negb (regex line)) X HX).
    case_decide as Hne; rewrite no_empty_line_iff in Hne.
    + split; [done|]. intros Hin. by destruct Hne.
    + split; [|done]. intros _. by apply dec_stable.
Qed.

Lemma raise_iff_empty_line_witness :
  reset_index gap = Raise ValueError ∧ filter gap blank = Raise ValueError ∧
  ¬ filter_out gap blank = Raise ValueError.
Proof.
  assert (Instance gap) as HX.
  { apply (Instance_init (LinesStr blank_text) None). reflexivity. }
  destruct (raise_iff_empty_line gap blank HX) as (Hr & Hf & Ho).
  assert ([] ∈ lines gap) as Hin.
  { apply list_elem_of_lookup. by exists 1%nat. }
  split; [by apply Hr|]. split; [by apply Hf|].
  intros H. apply Ho in H as [_ H]. discriminate H.
Defined.

(** ** Filters compose *)

Lemma kept_kept (p q : str → bool) (pairs : list (Z * str)) :
  kept q (kept p pairs) = kept (λ line, p line && q line) pairs.
Proof.
  unfold kept. rewrite list_filter_filter.
  apply list_filter_iff. intros [i line]; simpl.
  destruct (p line), (q line); simpl; split; try done; by intros [? ?].
Qed.

Lemma kept_none (keep : str → bool) (pairs : list (Z * str)) :
  (∀ line, keep line = false) → kept keep pairs = [].
Proof.
  intros Hk. unfold kept. induction pairs as [|[i line] pairs IH]; [done|].
  rewrite filter_cons_False; [done|]. simpl. by rewrite Hk.
Qed.

Lemma filter_Ok_inv (X Y : NumberedLines) (regex : str → bool) :
  well_formed X → filter X regex = Ok Y →
  Y = mkNL (kept regex (entries X)).*2 (kept regex (entries X)).*1 ∧
  no_empty_line (kept regex (entries X)).*2.
Proof.
  intros HX. rewrite filter_spec by done.
  case_decide; [|done]. by intros [= <-].
Qed.

(** X15: filtering is idempotent, and nothing of a filter's result
    survives [filter_out] with the same pattern: where [X.filter(r)]
    returns [Y], [Y.filter(r)] returns [Y] and [Y.filter_out(r)] returns
    the empty instance. *)
Theorem filter_idempotent (X Y : NumberedLines) (regex : str → bool) :
  Instance X → filter X regex = Ok Y →
  filter Y regex = Ok Y ∧ filter_out Y regex = Ok (mkNL [] []).
Proof.
  intros HX HY.
  assert (well_formed Y) as HwfY
    by (apply Instance_well_formed; by eapply Instance_filter).
  apply Instance_well_formed in HX.
  apply filter_Ok_inv in HY as [-> Hne]; [|done].
  rewrite filter_spec, filter_out_spec by done. simpl.
  rewrite !entries_mkNL, !kept_kept.
  split.
  - assert (kept (λ line, regex line && regex line) (entries X)
            = kept regex (entries X)) as ->.
    { unfold kept. apply list_filter_iff. intros [i line]; simpl.
      by destruct (regex line). }
    by rewrite decide_True.
  - rewrite kept_none by (intros line; by destruct (regex line)).
    by rewrite decide_True by constructor.
Qed.

Lemma filter_idempotent_witness :
  filter (mkNL [py "   "] [1]) blank = Ok (mkNL [py "   "] [1]) ∧
  filter_out (mkNL [py "   "] [1]) blank = Ok (mkNL [] []).
Proof.
  apply (filter_idempotent (mkNL [py "x"; py "   "; py "y"] [0; 1; 2])
           (mkNL [py "   "] [1]) blank); [|reflexivity].
  apply (Instance_init
           (LinesIter [PyStr (py "x"); PyStr (py "   "); PyStr (py "y")]) None).
  reflexivity.
Defined.

(** X16: two filters in a row are one filter with both patterns: where
    [X.filter(p)] returns [Y] and [Y.filter(q)] returns [Z], filtering [X]
    for the lines that match [p] and [q] returns [Z]; the order of the two
    filters does not matter. *)
Theorem filter_filter (X Y Z : NumberedLines) (p q : str → bool) :
  Instance X → filter X p = Ok Y → filter Y q = Ok Z →
  filter X (λ line, p line && q line) = Ok Z ∧
  filter X (λ line, q line && p line) = Ok Z.
Proof.
  intros HX HY HZ.
  assert (well_formed Y) as HwfY
    by (apply Instance_well_formed; by eapply Instance_filter).
  apply Instance_well_formed in HX.
  apply filter_Ok_inv in HY as [-> _]; [|done].
  apply filter_Ok_inv in HZ as [-> Hne]; [|done].
  rewrite entries_mkNL, kept_kept in Hne |- *.
  assert (kept (λ line, q line && p line) (entries X)
          = kept (λ line, p line && q line) (entries X)) as Hcomm.
  { unfold kept. apply list_filter_iff. intros [i line]; simpl.
    by rewrite andb_comm. }
  rewrite !filter_spec by done. rewrite Hcomm.
  by rewrite !decide_True.
Qed.

Lemma filter_filter_witness :
  filter (mkNL [py "ab"; py "b"; py "a b"] [0; 1; 2])
         (λ line, has_a line && negb (blank line))
  = Ok (mkNL [py "ab"; py "a b"] [0; 2]).
Proof.
  destruct (filter_filter (mkNL [py "ab"; py "b"; py "a b"] [0; 1; 2])
              (mkNL [py "ab"; py "a b"] [0; 2]) (mkNL [py "ab"; py "a b"] [0; 2])
              has_a (λ line, negb (blank line))) as [H _];
    [|reflexivity|reflexivity|exact H].
  apply (Instance_init
           (LinesIter [PyStr (py "ab"); PyStr (py "b"); PyStr (py "a b")]) None).
  reflexivity.
Defined.

(** ** Original line numbers *)

Lemma Derived_entries (X0 Y : NumberedLines) :
  Instance X0 → Derived X0 Y →
  Instance Y ∧ ∀ p, p ∈ entries Y → p ∈ entries X0.
Proof.
  intros HX0. induction 1 as [|X sl Y _ [HX IH] HY|X regex Y _ [HX IH] HY
                             |X regex Y _ [HX IH] HY].
  - done.
  - split; [by eapply Instance_slice|].
    pose proof (Instance_well_formed X HX) as Hwf.
    destruct (slice_positions sl (length (lines X))) as [ps|e] eqn:Hps.
    + rewrite (getitem_slice_spec X sl ps Hwf Hps) in HY.
      case_decide; [|done]. injection HY as <-.
      rewrite entries_pick by done. intros p Hp. apply IH.
      apply list_elem_of_omap in Hp as (k & _ & Hk).
      by eapply list_elem_of_lookup_2.
    + unfold getitem_slice, list_getslice in HY. by rewrite Hps in HY.
  - split; [by eapply Instance_filter|].
    pose proof (Instance_well_formed X HX) as Hwf.
    apply filter_Ok_inv in HY as [-> _]; [|done].
    rewrite entries_mkNL. intros p Hp. apply IH.
    by apply list_elem_of_filter in Hp as [_ Hp].
  - split; [by eapply Instance_filter_out|].
    pose proof (Instance_well_formed X HX) as Hwf.
    rewrite filter_out_spec in HY by done. simpl in HY.
    case_decide; [|done]. injection HY as <-.
    rewrite entries_mkNL. intros p Hp. apply IH.
    by apply list_elem_of_filter in Hp as [_ Hp].
Qed.

(** X17: the numbers stay the original ones.  When [X0] is constructed
    without an explicit index, every line of an instance derived from it
    by any chain of slices, [filter] and [filter_out] carries the position
    it has in [X0]: the line numbered [i] is line [i] of [X0]. *)
Theorem original_numbers (arg : lines_arg) (X0 Y : NumberedLines) :
  init arg None = Ok X0 → Derived X0 Y →
  ∀ (k : nat) (i : Z) (line : str),
    index Y !! k = Some i → lines Y !! k = Some line →
    0 ≤ i ∧ lines X0 !! Z.to_nat i = Some line.
Proof.
  intros HX0 HY k i line Hi Hline.
  assert (Instance X0) as HI by (by eapply Instance_init).
  destruct (Derived_entries X0 Y HI HY) as [_ Hsub].
  assert ((i, line) ∈ entries X0) as Hin.
  { apply Hsub. apply list_elem_of_lookup. exists k.
    apply lookup_zip_with_Some. by exists i, line. }
  apply list_elem_of_lookup in Hin as [j Hj].
  apply lookup_zip_with_Some in Hj as (i' & line' & [= <- <-] & Hidx & Hl).
  assert (index X0 = range (length (lines X0))) as Hrange.
  { clear -HX0. unfold init in HX0.
    destruct arg; simpl in HX0; [| |done]; by injection HX0 as <-. }
  rewrite Hrange in Hidx. unfold range in Hidx.
  rewrite list_lookup_fmap in Hidx.
  destruct (seq 0 (length (lines X0)) !! j) as [j'|] eqn:Hseq; [|done].
  apply lookup_seq in Hseq as [-> _]. simpl in Hidx. injection Hidx as <-.
  split; [lia|]. by rewrite Nat2Z.id.
Qed.

Lemma original_numbers_witness :
  0 ≤ 3 ∧ lines abcd !! Z.to_nat 3 = Some (py "d").
Proof.
  apply (original_numbers
           (LinesIter [PyStr (py "a"); PyStr (py "b"); PyStr (py "c");
                       PyStr (py "d")])
           abcd (mkNL [py "d"] [3]) eq_refl) with (k := 0%nat);
    [|reflexivity|reflexivity].
  apply (Derived_filter abcd (mkNL [py "b"; py "d"] [1; 3])
           (λ line, bool_decide (line = py "d"))); [|reflexivity].
  apply (Derived_slice abcd abcd (mkSlice (Some (-3)) (Some 100) (Some 2)));
    [apply Derived_refl|reflexivity].
Defined.

Lemma StronglySorted_sublist {A} (R : relation A) (l1 l2 : list A) :
  l1 `sublist_of` l2 → StronglySorted R l2 → StronglySorted R l1.
Proof.
  induction 1 as [|x l1 l2 Hsub IH|x l1 l2 Hsub IH]; intros Hs; [done| |].
  - inversion Hs as [|? ? Hs' Hall]; subst. constructor; [by apply IH|].
    apply Forall_forall. intros y Hy. rewrite Forall_forall in Hall.
    apply Hall. by eapply elem_of_sublist.
  - inversion Hs; subst. by apply IH.
Qed.

Lemma range_sorted (n : nat) : StronglySorted Z.lt (range n).
Proof.
  unfold range. eapply StronglySorted_fmap with (R1 := lt).
  - intros j k ?. lia.
  - rewrite <- (list_fmap_id (seq 0 n)).
    apply (sorted_fmap_seq (R := lt) id 0 n). unfold id. lia.
Qed.

(** X18: increasing numbers stay increasing.  The default numbers of the
    constructor increase strictly, and a slice with a positive step,
    [filter] and [filter_out] keep strictly increasing numbers strictly
    increasing, hence distinct. *)
Theorem index_stays_increasing (X Y : NumberedLines) :
  (∀ arg, init arg None = Ok X → StronglySorted Z.lt (index X)) ∧
  (Instance X → StronglySorted Z.lt (index X) →
   (∀ sl, 0 < default 1 (step sl) → getitem_slice X sl = Ok Y →
      StronglySorted Z.lt (index Y) ∧ NoDup (index Y)) ∧
   (∀ regex, filter X regex = Ok Y →
      StronglySorted Z.lt (index Y) ∧ NoDup (index Y)) ∧
   (∀ regex, filter_out X regex = Ok Y →
      StronglySorted Z.lt (index Y) ∧ NoDup (index Y))).
Proof.
  assert (∀ l : list Z, StronglySorted Z.lt l → NoDup l) as Hnodup.
  { induction 1 as [|x l _ IH Hall]; constructor; [|done].
    intros Hin. rewrite Forall_forall in Hall. specialize (Hall x Hin). lia. }
  split.
  - intros arg HX. unfold init in HX.
    destruct arg; simpl in HX; [| |done]; injection HX as <-; apply range_sorted.
  - intros HX%Instance_well_formed Hs.
    assert (∀ keep, (kept keep (entries X)).*1 `sublist_of` index X) as Hkept.
    { intros keep. destruct HX as [Hlen _].
      assert ((entries X).*1 = index X) as <-
        by (unfold entries; apply fst_zip; lia).
      apply fmap_sublist, kept_sublist. }
    assert (∀ l, l `sublist_of` index X →
                 StronglySorted Z.lt l ∧ NoDup l) as Hsub.
    { intros l Hl. assert (StronglySorted Z.lt l)
        by (by eapply StronglySorted_sublist).
      split; [done|by apply Hnodup]. }
    repeat split.
    + destruct (slice_positions sl (length (lines X))) as [ps|e] eqn:Hps.
      * rewrite (getitem_slice_spec X sl ps HX Hps) in H0.
        case_decide; [|done]. injection H0 as <-. simpl.
        apply slice_positions_Ok in Hps as (_ & Hup & _).
        apply Hsub, pick_sublist, Hup, H.
      * unfold getitem_slice, list_getslice in H0. by rewrite Hps in H0.
    + destruct (slice_positions sl (length (lines X))) as [ps|e] eqn:Hps.
      * rewrite (getitem_slice_spec X sl ps HX Hps) in H0.
        case_decide; [|done]. injection H0 as <-. simpl.
        apply slice_positions_Ok in Hps as (_ & Hup & _).
        apply Hsub, pick_sublist, Hup, H.
      * unfold getitem_slice, list_getslice in H0. by rewrite Hps in H0.
    + apply filter_Ok_inv in H as [-> _]; [|done]. simpl. by apply Hsub.
    + apply filter_Ok_inv in H as [-> _]; [|done]. simpl. by apply Hsub.
    + rewrite filter_out_spec in H by done. simpl in H.
      case_decide; [|done]. injection H as <-. simpl. by apply Hsub.
    + rewrite filter_out_spec in H by done. simpl in H.
      case_decide; [|done]. injection H as <-. simpl. by apply Hsub.
Qed.

Lemma index_stays_increasing_witness :
  StronglySorted Z.lt (index abcd) ∧
  StronglySorted Z.lt (index (mkNL [py "b"; py "d"] [1; 3])) ∧
  NoDup (index (mkNL [py "b"; py "d"] [1; 3])).
Proof.
  destruct (index_stays_increasing abcd (mkNL [py "b"; py "d"] [1; 3]))
    as [Hinit Hkeep].
  assert (StronglySorted Z.lt (index abcd)) as Hs.
  { apply (Hinit (LinesIter [PyStr (py "a"); PyStr (py "b"); PyStr (py "c");
                             PyStr (py "d")])).
    reflexivity. }
  split; [exact Hs|].
  destruct Hkeep as (Hslice & _); [|exact Hs|].
  - apply (Instance_init
             (LinesIter [PyStr (py "a"); PyStr (py "b"); PyStr (py "c");
                         PyStr (py "d")]) None).
    reflexivity.
  - apply (Hslice (mkSlice (Some (-3)) (Some 100) (Some 2))); [simpl; lia|].
    reflexivity.
Defined.

(** ** [to_list] *)

(** X19: rebuilding from [to_list()] and the numbers gives the instance
    back when no line is empty, and raises [ValueError] when one is. *)
Theorem to_list_round_trip (X : NumberedLines) :
  Instance X →
  derive (to_list X) (index X)
  = if decide ([] ∈ lines X) then Raise ValueError else Ok X.
Proof.
  intros [Hlen Htf]%Instance_well_formed. unfold to_list.
  rewrite derive_same_length by done. destruct X as [ls ix]; simpl.
  case_decide as Hne; case_decide as Hin; try done.
  - by apply no_empty_line_iff in Hne.
  - by apply no_empty_line_iff in Hin.
Qed.

Lemma to_list_round_trip_witness :
  derive (to_list abcd) (index abcd) = Ok abcd ∧
  derive (to_list gap) (index gap) = Raise ValueError.
Proof.
  split.
  - rewrite (to_list_round_trip abcd); [reflexivity|].
    apply (Instance_init
             (LinesIter [PyStr (py "a"); PyStr (py "b"); PyStr (py "c");
                         PyStr (py "d")]) None).
    reflexivity.
  - rewrite (to_list_round_trip gap); [reflexivity|].
    apply (Instance_init (LinesStr blank_text) None). reflexivity.
Defined.

(** ** The formatted lines *)

Lemma zero_padded_length (w : nat) (i : Z) :
  0 ≤ i → (length (decimal i) ≤ w)%nat → length (zero_padded w i) = w.
Proof.
  intros Hi Hw. unfold zero_padded. destruct (Z.ltb_spec i 0); [lia|].
  rewrite length_app, length_replicate. unfold str, char in *. lia.
Qed.

Lemma formatted_lookup (X : NumberedLines) (k : nat) (s : str) :
  formatted X !! k = Some s ↔
  ∃ i line, index X !! k = Some i ∧ lines X !! k = Some line ∧
            s = zero_padded (spec_width (index X)) i ++ py ": " ++ line.
Proof.
  unfold formatted, entries. rewrite list_lookup_fmap_Some. split.
  - intros ([i line] & -> & Hk).
    apply lookup_zip_with_Some in Hk as (i' & line' & [= <- <-] & Hi & Hl).
    by exists i, line.
  - intros (i & line & Hi & Hl & ->). exists (i, line). split; [done|].
    apply lookup_zip_with_Some. by exists i, line.
Qed.

(** X20: with non-negative numbers the formatted lines are aligned: the
    number takes exactly the default width in every line, so dropping
    width + 2 characters from a formatted line gives the line back. *)
Theorem format_aligned (X : NumberedLines) (out : list str) :
  Forall (λ i, 0 ≤ i) (index X) →
  format X None = Ok out →
  ∀ (k : nat) (s line : str),
    out !! k = Some s → lines X !! k = Some line →
    length s = (spec_width (index X) + 2 + length line)%nat ∧
    drop (spec_width (index X) + 2) s = line.
Proof.
  intros Hpos ->%format_None_Ok_inv k s line Hs Hline.
  fold (entries X) in Hs. fold (formatted X) in Hs.
  apply formatted_lookup in Hs as (i & line' & Hi & Hl & ->).
  assert (line' = line) as ->.
  { pose proof (eq_trans (eq_sym Hl) Hline) as Heq. by injection Heq. }
  assert (length (zero_padded (spec_width (index X)) i) = spec_width (index X))
    as Hw.
  { pose proof (list_elem_of_lookup_2 _ _ _ Hi) as Hin.
    rewrite Forall_forall in Hpos. specialize (Hpos i Hin).
    pose proof (max_index_ge (index X)) as Hmax.
    rewrite Forall_forall in Hmax. specialize (Hmax i Hin).
    apply zero_padded_length; [done|].
    rewrite decimal_nonneg by done.
    unfold spec_width, decimal_digits.
    pose proof (str_of_N_length_mono (Z.abs_N i) (Z.abs_N (max_index (index X)))
                  ltac:(lia)).
    lia. }
  split.
  - rewrite !length_app, Hw. simpl. lia.
  - rewrite drop_app_ge by (rewrite Hw; lia). rewrite Hw.
    replace (spec_width (index X) + 2 - spec_width (index X))%nat with 2%nat by lia.
    done.
Qed.

Lemma format_aligned_witness :
  length (py "007: a") = (spec_width [7%Z; 123%Z] + 2 + length (py "a"))%nat ∧
  drop (spec_width [7%Z; 123%Z] + 2) (py "007: a") = py "a".
Proof.
  apply (format_aligned (mkNL [py "a"; py "b"] [7; 123])
           [py "007: a"; py "123: b"]) with (k := 0%nat);
    [|reflexivity|reflexivity|reflexivity].
  repeat constructor; simpl; lia.
Defined.

(** X21: a negative [pad] raises [ValueError] as soon as there is a line
    to format, and returns the empty list when there is none. *)
Theorem format_negative_pad_raises (X : NumberedLines) (pad : Z) :
  pad < 0 →
  format X (Some pad) =
    match entries X with
    | [] => Ok []
    | _ :: _ => Raise ValueError
    end.
Proof.
  intros Hpad. unfold format, entries.
  destruct (zip (index X) (lines X)) as [|[i line] rest]; [done|].
  simpl. by rewrite format_int_negative_pad.
Qed.

Lemma format_negative_pad_raises_witness :
  format abcd (Some (-3)) = Raise ValueError.
Proof. apply (format_negative_pad_raises abcd (-3)). lia. Defined.

(** ** [__repr__] *)

(** [format()] on an instance: the formatted lines, or [ValueError] when
    a number has more than 4300 digits. *)
Lemma format_None_cases (X : NumberedLines) :
  well_formed X →
  format X None = if decide (Forall within_limit (index X))
                  then Ok (formatted X) else Raise ValueError.
Proof.
  intros HX. case_decide as Hall.
  - by apply format_None.
  - by apply format_None_over.
Qed.

Lemma formatted_length (X : NumberedLines) :
  well_formed X → length (formatted X) = len X.
Proof.
  intros [Hlen _]. unfold formatted, entries, len.
  rewrite length_fmap, length_zip_with. lia.
Qed.

(** X22: the preview of an instance of at most 30 lines whose numbers
    have at most 4300 digits is all of its formatted lines, and
    [__repr__] returns the text built from them; no empty line can make
    it raise.  With a number of more digits both raise [ValueError]. *)
Theorem repr_short (X : NumberedLines) :
  Instance X → (len X ≤ 30)%nat →
  preview X = (if decide (Forall within_limit (index X))
               then Ok (formatted X) else Raise ValueError) ∧
  length (formatted X) = len X ∧
  repr X = (if decide (Forall within_limit (index X))
            then Ok (py "NumberedLines([" ++ [LF] ++ py "  "
                       ++ join (LF :: py "  ") (formatted X) ++ [LF] ++ py "])")
            else Raise ValueError).
Proof.
  intros HX%Instance_well_formed Hn.
  assert (preview X = format X None) as Hp.
  { unfold preview. by rewrite bool_decide_true by (simpl; lia). }
  rewrite (format_None_cases X HX) in Hp.
  split; [done|]. split; [by apply formatted_length|].
  unfold repr. rewrite Hp. by case_decide.
Qed.

Lemma repr_short_witness :
  repr gap = Ok (py "NumberedLines([" ++ [LF] ++ py "  00: a" ++ [LF]
                   ++ py "  01: " ++ [LF] ++ py "  02: b" ++ [LF] ++ py "])").
Proof.
  destruct (repr_short gap) as (_ & _ & H).
  - apply (Instance_init (LinesStr blank_text) None). reflexivity.
  - change (len gap) with 3%nat. lia.
  - rewrite H. rewrite decide_True; [reflexivity|].
    repeat constructor; unfold within_limit; vm_compute; reflexivity.
Defined.

(** X23: the preview of an instance of more than 30 lines is built from
    its first five and its last five lines, each part formatted with the
    width of its own numbers: eleven strings with the marker in the
    middle.  It raises [ValueError] when one of those ten lines is empty
    or one of their ten numbers has more than 4300 digits, and only
    then. *)
Theorem repr_long (X : NumberedLines) :
  Instance X → (30 < len X)%nat →
  preview X =
    (if decide ([] ∈ take 5 (lines X) ++ drop (len X - 5) (lines X))
     then Raise ValueError
     else if decide (Forall within_limit
                       (take 5 (index X) ++ drop (len X - 5) (index X)))
     then Ok (formatted (mkNL (take 5 (lines X)) (take 5 (index X)))
                ++ [ellipsis]
                ++ formatted (mkNL (drop (len X - 5) (lines X))
                                   (drop (len X - 5) (index X))))
     else Raise ValueError) ∧
  length (formatted (mkNL (take 5 (lines X)) (take 5 (index X)))
            ++ [ellipsis]
            ++ formatted (mkNL (drop (len X - 5) (lines X))
                               (drop (len X - 5) (index X)))) = 11%nat.
Proof.
  intros [Hlen Htf]%Instance_well_formed Hn. unfold len in *.
  assert (well_formed (mkNL (take 5 (lines X)) (take 5 (index X)))) as Hhead.
  { split; simpl; [rewrite !length_take; lia|by apply Forall_take]. }
  assert (well_formed (mkNL (drop (length (lines X) - 5) (lines X))
                            (drop (length (lines X) - 5) (index X)))) as Htail.
  { split; simpl; [rewrite !length_drop; lia|by apply Forall_drop]. }
  split.
  - unfold preview, len. rewrite bool_decide_false by (simpl; lia).
    unfold getitem_slice.
    change (mkSlice None (Some (Z.of_nat 5)) None) with (up_to 5).
    change (mkSlice (Some (- Z.of_nat 5)) None None) with (last_of 5).
    pose proof (list_getslice_ends (lines X) 5) as (Hl1 & Hl2 & _).
    pose proof (list_getslice_ends (index X) 5) as (Hi1 & Hi2 & _).
    specialize (Hl2 ltac:(lia)). specialize (Hi2 ltac:(lia)).
    rewrite Hl1, Hl2, Hi1, Hi2.
    cbn [mbind result_bind]. rewrite <- Hlen.
    pose proof (format_None_cases _ Hhead) as Hfh.
    pose proof (format_None_cases _ Htail) as Hft.
    cbn [index] in Hfh, Hft.
    destruct Hhead as [Hhl Hht], Htail as [Htl Htt]. simpl in Hhl, Hht, Htl, Htt.
    rewrite (derive_same_length (take 5 (lines X))) by done.
    destruct (decide (no_empty_line (take 5 (lines X)))) as [Hh|Hh];
      cbn [mbind result_bind].
    + rewrite Hfh.
      destruct (decide (Forall within_limit (take 5 (index X)))) as [Hwh|Hwh];
        cbn [mbind result_bind].
      * rewrite (derive_same_length (drop (length (lines X) - 5) (lines X)))
          by done.
        destruct (decide (no_empty_line (drop (length (lines X) - 5) (lines X))))
          as [Ht|Ht]; cbn [mbind result_bind].
        -- rewrite Hft.
           destruct (decide (Forall within_limit
                               (drop (length (lines X) - 5) (index X))))
             as [Hwt|Hwt]; cbn [mbind result_bind].
           ++ rewrite decide_False, decide_True; [done| |].
              ** by apply Forall_app.
              ** rewrite elem_of_app. apply no_empty_line_iff in Hh, Ht. tauto.
           ++ rewrite (decide_False (P := Forall within_limit _));
                [by destruct (decide ([] ∈ _))|].
              intros [_ ?]%Forall_app. done.
        -- rewrite decide_True; [done|].
           rewrite elem_of_app. right. rewrite no_empty_line_iff in Ht.
           by apply dec_stable.
      * rewrite (decide_False (P := Forall within_limit _));
          [by destruct (decide ([] ∈ _))|].
        intros [? _]%Forall_app. done.
    + rewrite decide_True; [done|].
      rewrite elem_of_app. left. rewrite no_empty_line_iff in Hh.
      by apply dec_stable.
  - rewrite !length_app, !formatted_length by done. unfold len; simpl.
    rewrite length_take, length_drop. lia.
Qed.

Lemma repr_long_witness :
  Instance xs31 ∧
  preview xs31
  = Ok [py "00: x"; py "01: x"; py "02: x"; py "03: x"; py "04: x"; ellipsis;
        py "26: x"; py "27: x"; py "28: x"; py "29: x"; py "30: x"].
Proof.
  assert (Instance xs31) as HX.
  { apply (Instance_init (LinesIter (PyStr <$> replicate 31 (py "x"))) None).
    reflexivity. }
  split; [exact HX|].
  destruct (repr_long xs31 HX) as [H _].
  - change (len xs31) with 31%nat. lia.
  - rewrite H. vm_compute. reflexivity.
Defined.

(** ** Instances without an empty line *)

(** X24: where [reset_index] returns, the lines are unchanged, the
    numbers are [0 .. n-1] and a second reset changes nothing; an instance
    that still has its default numbers is returned as it is. *)
Theorem reset_index_renumbers (X Y : NumberedLines) :
  Instance X → reset_index X = Ok Y →
  lines Y = lines X ∧ index Y = range (len X) ∧ reset_index Y = Ok Y ∧
  (∀ arg, init arg None = Ok X → Y = X).
Proof.
  intros HX HY.
  destruct (reset_index_Ok X Y HX HY) as (Hl & Hi & Hagain).
  split; [done|]. split; [done|]. split; [done|].
  intros arg Harg.
  assert (index X = range (len X)) as Hdef.
  { clear -Harg. unfold init, len in *.
    destruct arg; simpl in Harg; [| |done]; by injection Harg as <-. }
  destruct X, Y; simpl in *. congruence.
Qed.

Lemma reset_index_renumbers_witness :
  index (mkNL [py "b"; py "c"] [0; 1]) = range 2 ∧
  reset_index (mkNL [py "b"; py "c"] [0; 1]) = Ok (mkNL [py "b"; py "c"] [0; 1]).
Proof.
  destruct (reset_index_renumbers (mkNL [py "b"; py "c"] [1; 2])
              (mkNL [py "b"; py "c"] [0; 1])) as (_ & Hi & Hagain & _);
    [|reflexivity|exact (conj Hi Hagain)].
  apply (Instance_init (LinesIter [PyStr (py "b"); PyStr (py "c")]) (Some [1; 2])).
  reflexivity.
Defined.

(** X25: on an instance without an empty line every transformation
    returns: a slice with a non-zero step, [filter], [filter_out] and
    [reset_index]; and their results are again without an empty line. *)
Theorem transformations_return_without_empty_line
    (X : NumberedLines) (regex : str → bool) (sl : slice) :
  Instance X → [] ∉ lines X → step sl ≠ Some 0 →
  ∃ S F O R,
    getitem_slice X sl = Ok S ∧ filter X regex = Ok F ∧
    filter_out X regex = Ok O ∧ reset_index X = Ok R ∧
    ([] ∉ lines S) ∧ ([] ∉ lines F) ∧ ([] ∉ lines O) ∧ ([] ∉ lines R).
Proof.
  intros HX Hne%no_empty_line_iff Hst.
  destruct (transformations_total_no_empty_line X regex sl HX Hne Hst)
    as (HS & HF & HO & HR).
  pose proof (Instance_well_formed X HX) as Hwf.
  destruct (slice_positions_total sl (length (lines X)) Hst) as [ps Hps].
  rewrite (getitem_slice_spec X sl ps Hwf Hps) in HS |- *.
  rewrite filter_spec in HF |- * by done.
  rewrite filter_out_spec in HO |- * by done.
  rewrite reset_index_spec in HR |- * by done. simpl in HO |- *.
  repeat case_decide; try done.
  eexists _, _, _, _. repeat split; simpl; by apply no_empty_line_iff.
Qed.

Lemma transformations_return_without_empty_line_witness :
  ∃ S F O R,
    getitem_slice abcd backwards = Ok S ∧ filter abcd has_a = Ok F ∧
    filter_out abcd has_a = Ok O ∧ reset_index abcd = Ok R ∧
    ([] ∉ lines S) ∧ ([] ∉ lines F) ∧ ([] ∉ lines O) ∧ ([] ∉ lines R).
Proof.
  apply (transformations_return_without_empty_line abcd has_a backwards).
  - apply (Instance_init
             (LinesIter [PyStr (py "a"); PyStr (py "b"); PyStr (py "c");
                         PyStr (py "d")]) None).
    reflexivity.
  - apply no_empty_line_iff. repeat constructor; discriminate.
  - discriminate.
Defined.
